(** * CONTRACT: the contract-violation reporting pipeline

    A shallow embedding of [src/CONTRACT/contract.c] (the failure handler
    [_contract_fail]) and [src/CONTRACT/contract_errors.h] (the
    [posix_error_t] enumeration and the [contract_strerror] lookup), with
    the theorems that settle the specification's statements about them.

    C data is modelled as follows.
    - [int], [time_t]: [Z] (the handler does no arithmetic on them).
    - [const char *] to a NUL-terminated string: [string]; a pointer into
      such a string is an offset ([nat]) and a nullable pointer an
      [option nat].
    - [struct tm]: the record [tm].
    - the process (errno, clock, standard error, termination): the record
      [process], threaded through the monad [proc]; a call either returns
      or ends the process. [Libc] has the C library on its good path;
      [Hosted] has it as the C standard leaves it (calls that set [errno],
      a null pointer from [localtime], a buffered standard error), and
      [good_host_agrees] ties the two. *)

From Stdlib Require Import ZArith List Bool Lia.
From Stdlib Require Import Strings.Ascii Strings.String.
Import ListNotations.

Local Open Scope string_scope.
Local Open Scope Z_scope.

(** ** Characters and C strings *)

Module CStr.

(** The C escapes the sources use: ['\n'] and ['\\']; ['/'] for symmetry. *)
Definition LF : ascii := "010"%char.
Definition backslash : ascii := "092"%char.
Definition slash : ascii := "/"%char.

Definition newline : string := String LF "".

(** Offset of the last character of [s] that satisfies [p]. *)
Fixpoint rfind (p : ascii -> bool) (s : string) : option nat :=
  match s with
  | "" => None
  | String a s' =>
      match rfind p s' with
      | Some k => Some (S k)
      | None => if p a then Some 0%nat else None
      end
  end.

(** [strrchr(s, c)] of <string.h>, for [c] other than NUL: a pointer to the
    last occurrence of [c] in [s], or the null pointer. *)
Definition strrchr (s : string) (c : ascii) : option nat :=
  rfind (Ascii.eqb c) s.

(** The string a pointer [s + k] denotes. *)
Fixpoint at_offset (k : nat) (s : string) : string :=
  match k, s with
  | O, _ => s
  | S k', String _ s' => at_offset k' s'
  | S _, "" => ""
  end.

(** Does some character of [s] satisfy [p]? *)
Fixpoint any_char (p : ascii -> bool) (s : string) : bool :=
  match s with
  | "" => false
  | String a s' => p a || any_char p s'
  end.

(** Do all characters of [s] satisfy [p]? *)
Fixpoint all_char (p : ascii -> bool) (s : string) : bool :=
  match s with
  | "" => true
  | String a s' => p a && all_char p s'
  end.

(** How many characters of [s] satisfy [p]. *)
Fixpoint count_char (p : ascii -> bool) (s : string) : nat :=
  match s with
  | "" => O
  | String a s' => ((if p a then 1 else 0) + count_char p s')%nat
  end.

Definition is_LF (a : ascii) : bool := Ascii.eqb a LF.

(** [s] ends with the character [c]. *)
Fixpoint ends_with (c : ascii) (s : string) : bool :=
  match s with
  | "" => false
  | String a "" => Ascii.eqb a c
  | String _ s' => ends_with c s'
  end.

(** One newline-terminated line: the only line feed is the last character. *)
Definition one_line (s : string) : bool :=
  ends_with LF s && Nat.eqb (count_char is_LF s) 1.

End CStr.

(** ** Decimal output, as [%d] of printf and the numeric conversions of
    strftime produce it *)

Module Dec.

Definition digit_char (d : Z) : ascii :=
  ascii_of_nat (48 + Z.to_nat d).

Fixpoint digits_of (fuel : nat) (n : Z) (acc : string) : string :=
  match fuel with
  | O => acc
  | S fuel' =>
      let acc' := String (digit_char (n mod 10)) acc in
      if n <? 10 then acc' else digits_of fuel' (n / 10) acc'
  end.

(** A number below [2^(k+1)] has at most [k+1] decimal digits. *)
Definition print_unsigned (n : Z) : string :=
  digits_of (S (Z.to_nat (Z.log2 n))) n "".

(** [%d]. *)
Definition print_int (n : Z) : string :=
  if n <? 0 then String "-" (print_unsigned (- n)) else print_unsigned n.

(** A numeric field zero-padded to two places ([%m], [%d], [%H], [%M],
    [%S] of strftime). *)
Definition pad2 (n : Z) : string :=
  let s := print_int n in
  if (String.length s <? 2)%nat then String "0" s else s.

Definition is_digit (a : ascii) : bool :=
  let n := nat_of_ascii a in (48 <=? n)%nat && (n <=? 57)%nat.

End Dec.

(** ** The error taxonomy ([contract_errors.h]) *)

Module Errors.

(** [posix_error_t]: one constructor per enumerator, in the order of the
    header. *)
Inductive posix_error_t : Set :=
  | POSIX_SUCCESS
  | POSIX_EPERM
  | POSIX_ENOENT
  | POSIX_ESRCH
  | POSIX_EINTR
  | POSIX_EIO
  | POSIX_ENXIO
  | POSIX_E2BIG
  | POSIX_ENOEXEC
  | POSIX_EBADF
  | POSIX_ECHILD
  | POSIX_EAGAIN
  | POSIX_EWOULDBLOCK
  | POSIX_ENOMEM
  | POSIX_EACCES
  | POSIX_EFAULT
  | POSIX_EBUSY
  | POSIX_EEXIST
  | POSIX_EXDEV
  | POSIX_ENODEV
  | POSIX_ENOTDIR
  | POSIX_EISDIR
  | POSIX_EINVAL
  | POSIX_ENFILE
  | POSIX_EMFILE
  | POSIX_ENOTTY
  | POSIX_ETXTBSY
  | POSIX_EFBIG
  | POSIX_EPIPE
  | POSIX_EDOM
  | POSIX_ERANGE
  | POSIX_EDEADLK
  | POSIX_ENAMETOOLONG
  | POSIX_ENOTEMPTY
  | POSIX_ELOOP
  | POSIX_EROFS
  | POSIX_EMLINK
  | POSIX_EIDRM
  | POSIX_ETIME
  | POSIX_ENOLINK
  | POSIX_EPROTO
  | POSIX_EOVERFLOW
  | POSIX_ENOLCK
  | POSIX_EILSEQ
  | POSIX_EMSGSIZE
  | POSIX_EPROTOTYPE
  | POSIX_EPROTONOSUPPORT
  | POSIX_ENOTSUP
  | POSIX_EOPNOTSUPP
  | POSIX_ENETDOWN
  | POSIX_ENETUNREACH
  | POSIX_ETIMEDOUT
  | POSIX_EHOSTUNREACH
  | POSIX_EALREADY
  | POSIX_EINPROGRESS
  | POSIX_ESTALE
  | POSIX_ECANCELED
  | POSIX_EOWNERDEAD
  | POSIX_ENOTRECOVERABLE.

(** The integer value the header gives each enumerator. *)
Definition posix_code (e : posix_error_t) : Z :=
  match e with
  | POSIX_SUCCESS => 0
  | POSIX_EPERM => 1
  | POSIX_ENOENT => 2
  | POSIX_ESRCH => 3
  | POSIX_EINTR => 4
  | POSIX_EIO => 5
  | POSIX_ENXIO => 6
  | POSIX_E2BIG => 7
  | POSIX_ENOEXEC => 8
  | POSIX_EBADF => 9
  | POSIX_ECHILD => 10
  | POSIX_EAGAIN => 11
  | POSIX_EWOULDBLOCK => 11
  | POSIX_ENOMEM => 12
  | POSIX_EACCES => 13
  | POSIX_EFAULT => 14
  | POSIX_EBUSY => 16
  | POSIX_EEXIST => 17
  | POSIX_EXDEV => 18
  | POSIX_ENODEV => 19
  | POSIX_ENOTDIR => 20
  | POSIX_EISDIR => 21
  | POSIX_EINVAL => 22
  | POSIX_ENFILE => 23
  | POSIX_EMFILE => 24
  | POSIX_ENOTTY => 25
  | POSIX_ETXTBSY => 26
  | POSIX_EFBIG => 27
  | POSIX_EPIPE => 32
  | POSIX_EDOM => 33
  | POSIX_ERANGE => 34
  | POSIX_EDEADLK => 35
  | POSIX_ENAMETOOLONG => 36
  | POSIX_ENOTEMPTY => 39
  | POSIX_ELOOP => 40
  | POSIX_EROFS => 30
  | POSIX_EMLINK => 31
  | POSIX_EIDRM => 43
  | POSIX_ETIME => 62
  | POSIX_ENOLINK => 67
  | POSIX_EPROTO => 71
  | POSIX_EOVERFLOW => 75
  | POSIX_ENOLCK => 77
  | POSIX_EILSEQ => 84
  | POSIX_EMSGSIZE => 90
  | POSIX_EPROTOTYPE => 91
  | POSIX_EPROTONOSUPPORT => 93
  | POSIX_ENOTSUP => 95
  | POSIX_EOPNOTSUPP => 95
  | POSIX_ENETDOWN => 100
  | POSIX_ENETUNREACH => 101
  | POSIX_ETIMEDOUT => 110
  | POSIX_EHOSTUNREACH => 113
  | POSIX_EALREADY => 114
  | POSIX_EINPROGRESS => 115
  | POSIX_ESTALE => 116
  | POSIX_ECANCELED => 125
  | POSIX_EOWNERDEAD => 130
  | POSIX_ENOTRECOVERABLE => 131
  end.

(** Every enumerator, in the order of the header. *)
Definition all_errors : list posix_error_t :=
  [POSIX_SUCCESS;
   POSIX_EPERM;
   POSIX_ENOENT;
   POSIX_ESRCH;
   POSIX_EINTR;
   POSIX_EIO;
   POSIX_ENXIO;
   POSIX_E2BIG;
   POSIX_ENOEXEC;
   POSIX_EBADF;
   POSIX_ECHILD;
   POSIX_EAGAIN;
   POSIX_EWOULDBLOCK;
   POSIX_ENOMEM;
   POSIX_EACCES;
   POSIX_EFAULT;
   POSIX_EBUSY;
   POSIX_EEXIST;
   POSIX_EXDEV;
   POSIX_ENODEV;
   POSIX_ENOTDIR;
   POSIX_EISDIR;
   POSIX_EINVAL;
   POSIX_ENFILE;
   POSIX_EMFILE;
   POSIX_ENOTTY;
   POSIX_ETXTBSY;
   POSIX_EFBIG;
   POSIX_EPIPE;
   POSIX_EDOM;
   POSIX_ERANGE;
   POSIX_EDEADLK;
   POSIX_ENAMETOOLONG;
   POSIX_ENOTEMPTY;
   POSIX_ELOOP;
   POSIX_EROFS;
   POSIX_EMLINK;
   POSIX_EIDRM;
   POSIX_ETIME;
   POSIX_ENOLINK;
   POSIX_EPROTO;
   POSIX_EOVERFLOW;
   POSIX_ENOLCK;
   POSIX_EILSEQ;
   POSIX_EMSGSIZE;
   POSIX_EPROTOTYPE;
   POSIX_EPROTONOSUPPORT;
   POSIX_ENOTSUP;
   POSIX_EOPNOTSUPP;
   POSIX_ENETDOWN;
   POSIX_ENETUNREACH;
   POSIX_ETIMEDOUT;
   POSIX_EHOSTUNREACH;
   POSIX_EALREADY;
   POSIX_EINPROGRESS;
   POSIX_ESTALE;
   POSIX_ECANCELED;
   POSIX_EOWNERDEAD;
   POSIX_ENOTRECOVERABLE].

(** An integer is a defined code when some enumerator has that value. *)
Definition defined_code (err : Z) : Prop :=
  exists e : posix_error_t, posix_code e = err.

Definition is_defined_code (err : Z) : bool :=
  existsb (fun e => posix_code e =? err) all_errors.

(** Modelled from the spec: the phrase table behind [contract_strerror];
    the header only declares the function, its definition and its table are
    not among the sources. [contract_tools.h] describes the table as an
    array [errno_to_msg] indexed by the error number, written with
    designated initialisers ([[22] = ... "Invalid argument"]). The spec asks
    for one phrase per numeric key, chosen once: an aliased value
    (11, 95) has a single initialiser, under its first name. The phrases
    are the descriptions the header attaches to the enumerators. *)
Definition errno_to_msg_init : list (posix_error_t * string) :=
  [(POSIX_SUCCESS, "No error; operation succeeded");
   (POSIX_EPERM, "Operation not permitted");
   (POSIX_ENOENT, "No such file or directory");
   (POSIX_ESRCH, "No such process");
   (POSIX_EINTR, "Interrupted system call");
   (POSIX_EIO, "Input/output error");
   (POSIX_ENXIO, "No such device or address");
   (POSIX_E2BIG, "Argument list too long");
   (POSIX_ENOEXEC, "Executable file format error");
   (POSIX_EBADF, "Bad file descriptor");
   (POSIX_ECHILD, "No child processes");
   (POSIX_EAGAIN, "Resource unavailable, try again");
   (POSIX_ENOMEM, "Out of memory");
   (POSIX_EACCES, "Permission denied");
   (POSIX_EFAULT, "Bad address");
   (POSIX_EBUSY, "Device or resource busy");
   (POSIX_EEXIST, "File exists");
   (POSIX_EXDEV, "Cross-device link");
   (POSIX_ENODEV, "No such device");
   (POSIX_ENOTDIR, "Not a directory");
   (POSIX_EISDIR, "Is a directory");
   (POSIX_EINVAL, "Invalid argument");
   (POSIX_ENFILE, "Too many files open in system");
   (POSIX_EMFILE, "Too many open files");
   (POSIX_ENOTTY, "Inappropriate I/O control operation");
   (POSIX_ETXTBSY, "Text file busy");
   (POSIX_EFBIG, "File too large");
   (POSIX_EPIPE, "Broken pipe");
   (POSIX_EDOM, "Numerical argument out of domain");
   (POSIX_ERANGE, "Result too large");
   (POSIX_EDEADLK, "Resource deadlock would occur");
   (POSIX_ENAMETOOLONG, "File name too long");
   (POSIX_ENOTEMPTY, "Directory not empty");
   (POSIX_ELOOP, "Too many levels of symbolic links");
   (POSIX_EROFS, "Read-only file system");
   (POSIX_EMLINK, "Too many links");
   (POSIX_EIDRM, "Identifier removed");
   (POSIX_ETIME, "Timer expired");
   (POSIX_ENOLINK, "Link has been severed");
   (POSIX_EPROTO, "Protocol error");
   (POSIX_EOVERFLOW, "Value too large to be stored in data type");
   (POSIX_ENOLCK, "No locks available");
   (POSIX_EILSEQ, "Illegal byte sequence");
   (POSIX_EMSGSIZE, "Message too long");
   (POSIX_EPROTOTYPE, "Protocol wrong type for socket");
   (POSIX_EPROTONOSUPPORT, "Protocol not supported");
   (POSIX_ENOTSUP, "Operation not supported");
   (POSIX_ENETDOWN, "Network is down");
   (POSIX_ENETUNREACH, "Network is unreachable");
   (POSIX_ETIMEDOUT, "Connection timed out");
   (POSIX_EHOSTUNREACH, "No route to host");
   (POSIX_EALREADY, "Connection already in progress");
   (POSIX_EINPROGRESS, "Operation in progress");
   (POSIX_ESTALE, "Stale file handle");
   (POSIX_ECANCELED, "Operation canceled");
   (POSIX_EOWNERDEAD, "Previous owner died");
   (POSIX_ENOTRECOVERABLE, "State not recoverable")].

(** A C array of [const char *]: [None] is a null entry. *)
Definition msg_array : Set := list (option string).

(** [a[i] = Some v] for [i] within the array, which is left as it is
    otherwise. *)
Fixpoint array_set (a : msg_array) (i : nat) (v : string) : msg_array :=
  match a, i with
  | [], _ => []
  | _ :: a', O => Some v :: a'
  | x :: a', S i' => x :: array_set a' i' v
  end.

(** Modelled from the spec: the size of the table, one more than the
    largest enumerator ([POSIX_ENOTRECOVERABLE = 131]). *)
Definition errno_to_msg_size : nat := 132.

(** Modelled from the spec: the array the designated initialisers build,
    null wherever no initialiser names the index. *)
Definition errno_to_msg : msg_array :=
  fold_left
    (fun a '(e, phrase) => array_set a (Z.to_nat (posix_code e)) phrase)
    errno_to_msg_init
    (repeat None errno_to_msg_size).

(** Modelled from the spec: the fallback phrase of an undefined code. *)
Definition unknown_error : string := "Unknown error".

(** Modelled from the spec: [contract_strerror], declared in
    [contract_errors.h] and defined outside the sources. A bounded table
    lookup: the phrase of [err] when the table has one, the fallback for a
    negative number, a number past the table and a null entry. *)
Definition contract_strerror (err : Z) : string :=
  if err <? 0 then unknown_error
  else
    match nth_error errno_to_msg (Z.to_nat err) with
    | Some (Some phrase) => phrase
    | Some None | None => unknown_error
    end.

(** The phrase an enumerator resolves to. *)
Definition phrase_of (e : posix_error_t) : string :=
  contract_strerror (posix_code e).

End Errors.

(** ** The C library calls the handler makes *)

Module Libc.

Import CStr Dec.

(** [struct tm] of <time.h>, the members strftime reads for the handler's
    format. *)
Record tm : Set := mk_tm {
  tm_sec : Z;    (* seconds after the minute, 0..60 *)
  tm_min : Z;    (* minutes after the hour, 0..59 *)
  tm_hour : Z;   (* hours since midnight, 0..23 *)
  tm_mday : Z;   (* day of the month, 1..31 *)
  tm_mon : Z;    (* months since January, 0..11 *)
  tm_year : Z    (* years since 1900 *)
}.

(** The ranges the C standard gives the members of a broken-down time, as
    localtime returns it. *)
Definition tm_in_range (t : tm) : Prop :=
  0 <= tm_sec t <= 60 /\ 0 <= tm_min t <= 59 /\ 0 <= tm_hour t <= 23 /\
  1 <= tm_mday t <= 31 /\ 0 <= tm_mon t <= 11.

(** The calendar year of a broken-down time. *)
Definition year_of (t : tm) : Z := 1900 + tm_year t.

(** One conversion specification of strftime. The handler's format uses
    [%Y %m %d %H %M %S]; any other character is copied after its [%]. *)
Definition strftime_conv (c : ascii) (t : tm) : string :=
  if Ascii.eqb c "Y" then print_int (year_of t)
  else if Ascii.eqb c "m" then pad2 (tm_mon t + 1)
  else if Ascii.eqb c "d" then pad2 (tm_mday t)
  else if Ascii.eqb c "H" then pad2 (tm_hour t)
  else if Ascii.eqb c "M" then pad2 (tm_min t)
  else if Ascii.eqb c "S" then pad2 (tm_sec t)
  else if Ascii.eqb c "%" then "%"
  else String "%" (String c "").

(** The characters strftime produces for a format. *)
Fixpoint strftime_text (format : string) (t : tm) : string :=
  match format with
  | "" => ""
  | String a rest =>
      if Ascii.eqb a "%" then
        match rest with
        | String c rest' => strftime_conv c t ++ strftime_text rest' t
        | "" => "%"
        end
      else String a (strftime_text rest t)
  end.

(** [strftime(s, maxsize, format, t)]: when the text and its terminating
    NUL fit [maxsize] bytes the array holds the text ([Some]); otherwise
    the call returns 0 and the contents of the array are indeterminate
    ([None]). *)
Definition strftime (maxsize : nat) (format : string) (t : tm)
  : option string :=
  let text := strftime_text format t in
  if (String.length text + 1 <=? maxsize)%nat then Some text else None.

(** The arguments of a printf call. *)
Inductive printf_arg : Set :=
  | Arg_s (s : string)
  | Arg_d (n : Z).

(** One conversion of printf, [%s] or [%d], applied to the next
    argument. *)
Definition printf_conv (c : ascii) (a : printf_arg) : string :=
  match a with
  | Arg_s s => if Ascii.eqb c "s" then s else ""
  | Arg_d n => if Ascii.eqb c "d" then print_int n else ""
  end.

(** The characters printf produces for a format and its arguments;
    [%%] is a percent sign, and a conversion without an argument produces
    nothing. *)
Fixpoint printf_text (format : string) (args : list printf_arg) : string :=
  match format with
  | "" => ""
  | String a rest =>
      if Ascii.eqb a "%" then
        match rest with
        | String c rest' =>
            if Ascii.eqb c "%" then String "%" (printf_text rest' args)
            else
              match args with
              | x :: args' => printf_conv c x ++ printf_text rest' args'
              | [] => printf_text rest' []
              end
        | "" => ""
        end
      else String a (printf_text rest args)
  end.

(** What the process does that can be observed from outside. *)
Inductive event : Set :=
  | Stderr_write (text : string)   (* bytes handed to standard error *)
  | Abort_signal.                  (* abort(): abnormal termination *)

(** The state of the process around a call of the handler. *)
Record process : Type := mk_process {
  errno : Z;                 (* the thread's last error number *)
  clock : Z;                 (* what time(NULL) reads *)
  zone : Z -> tm;            (* localtime's conversion of a time_t *)
  stderr_ok : bool;          (* can standard error be written? *)
  stack_junk : string;       (* what an indeterminate char array reads as *)
  trace : list event         (* the events so far, oldest first *)
}.

Definition emit (e : event) (p : process) : process :=
  mk_process (errno p) (clock p) (zone p) (stderr_ok p) (stack_junk p)
             (trace p ++ [e]).

(** A call either returns a value or ends the process. *)
Inductive outcome (A : Type) : Type :=
  | Returned (a : A) (p : process)
  | Aborted (p : process).

Arguments Returned {A} a p.
Arguments Aborted {A} p.

Definition proc (A : Type) : Type := process -> outcome A.

Definition ret {A : Type} (a : A) : proc A := fun p => Returned a p.

Definition bind {A B : Type} (c : proc A) (k : A -> proc B) : proc B :=
  fun p =>
    match c p with
    | Returned a p' => k a p'
    | Aborted p' => Aborted p'
    end.

(** [time(NULL)], on the good path: the clock calls succeed and leave
    [errno] as it is. [Hosted.time] lets the call set [errno]. *)
Definition time : proc Z := fun p => Returned (clock p) p.

(** [localtime(&t)], on the good path: a pointer to a broken-down time,
    [errno] left as it is. [Hosted.localtime] may return the null pointer
    and set [errno]. *)
Definition localtime (t : Z) : proc tm := fun p => Returned (zone p t) p.

(** Reading [errno]. *)
Definition read_errno : proc Z := fun p => Returned (errno p) p.

(** A char array as [%s] reads it after strftime has filled it. *)
Definition read_array (a : option string) : proc string :=
  fun p =>
    match a with
    | Some s => Returned s p
    | None => Returned (stack_junk p) p
    end.

(** [fprintf(stderr, format, ...)], on the good path: standard error is
    unbuffered, as at program start-up, and the text goes out during the
    call; [Hosted.fprintf_stderr] has the buffered stream too. The result
    is the number of characters written, or a negative number when the
    stream cannot be written, and then nothing goes out. *)
Definition fprintf_stderr (format : string) (args : list printf_arg)
  : proc Z :=
  fun p =>
    let text := printf_text format args in
    if stderr_ok p
    then Returned (Z.of_nat (String.length text)) (emit (Stderr_write text) p)
    else Returned (-1) p.

(** [abort()]: does not return. *)
Definition abort {A : Type} : proc A :=
  fun p => Aborted (emit Abort_signal p).

(** What has been written to standard error, oldest first. *)
Fixpoint stderr_writes (tr : list event) : list string :=
  match tr with
  | [] => []
  | Stderr_write text :: tr' => text :: stderr_writes tr'
  | Abort_signal :: tr' => stderr_writes tr'
  end.

End Libc.

Declare Scope proc_scope.
Delimit Scope proc_scope with proc.
Notation "x <- c ;; k" := (Libc.bind c (fun x => k))
  (at level 61, c at next level, right associativity) : proc_scope.
Notation "c ;; k" := (Libc.bind c (fun _ => k))
  (at level 61, right associativity) : proc_scope.

(** ** The failure handler ([contract.c]) and the checks *)

Module Contract.

Import CStr Dec Libc Errors.
Local Open Scope proc_scope.

(** [sizeof(datetime)] for [char datetime[20]]. *)
Definition sizeof_datetime : nat := 20.

Definition datetime_format : string := "%Y-%m-%d %H:%M:%S".

(** The format of the diagnostic, ["[%s] %s:%d|%s|%d(%s)|%s\n"]. *)
Definition diagnostic_format : string :=
  "[%s] %s:%d|%s|%d(%s)|%s" ++ newline.

(** Lines 14 to 19 of [contract.c]: the string [filename] points to once
    the separators have been looked for. *)
Definition filename_of (file : string) : string :=
  let filename := 0%nat in
  let last_slash := strrchr file backslash in
  let last_slash :=
    match last_slash with
    | None => strrchr file slash
    | Some _ => last_slash
    end in
  let filename :=
    match last_slash with
    | Some k => S k
    | None => filename
    end in
  at_offset filename file.

(** [contract_strerror] as a call: a lookup that leaves the process as it
    is. *)
Definition call_contract_strerror (err : Z) : proc string :=
  ret (contract_strerror err).

(** [void _contract_fail(const char *cond, const char *msg,
                         const char *file, int line)].
    The arguments of fprintf read [errno] twice, once for [%d] and once
    for the call of [contract_strerror]; C leaves the order of the two
    open, and neither read changes the process. *)
Definition _contract_fail (cond msg file : string) (line : Z) : proc unit :=
  now <- time ;;
  let filename := filename_of file in
  tm_info <- localtime now ;;
  datetime <- read_array (strftime sizeof_datetime datetime_format tm_info) ;;
  code <- read_errno ;;
  err <- read_errno ;;
  phrase <- call_contract_strerror err ;;
  fprintf_stderr diagnostic_format
    [Arg_s datetime; Arg_s filename; Arg_d line; Arg_s cond;
     Arg_d code; Arg_s phrase; Arg_s msg] ;;
  abort.

(** The categories of the check vocabulary, as [demo_contract.h] groups
    the checks. *)
Inductive category : Set :=
  | General | Memory | Numeric | Filesystem | Process_state
  | Network | Encoding | Permission | Miscellaneous.

(** Modelled from the spec: the primitive every check of the vocabulary
    reduces to; [contract.h], which defines the checks as macros, is not
    among the sources. A true condition is a no-op; a false one hands the
    condition's source text, the message and the call's location to the
    failure handler. The category is a label of the call site and does not
    reach the handler, which has no parameter for it. *)
Definition check (condition : bool) (cat : category)
    (cond_text msg file : string) (line : Z) : proc unit :=
  if condition then ret tt
  else _contract_fail cond_text msg file line.

(** The diagnostic the spec describes:
    [[timestamp] filename:line|condition_text|code(phrase)|message],
    newline-terminated. *)
Definition diagnostic_line
    (timestamp filename : string) (line : Z) (cond : string)
    (code : Z) (phrase msg : string) : string :=
  "[" ++ timestamp ++ "] " ++ filename ++ ":" ++ print_int line ++ "|" ++
  cond ++ "|" ++ print_int code ++ "(" ++ phrase ++ ")|" ++ msg ++ newline.

(** The shape [YYYY-MM-DD HH:MM:SS]: 19 characters, digits but for the
    separators. *)
Definition is_timestamp (s : string) : bool :=
  match list_ascii_of_string s with
  | [y1; y2; y3; y4; s1; m1; m2; s2; d1; d2; s3;
     h1; h2; s4; n1; n2; s5; c1; c2] =>
      forallb is_digit [y1; y2; y3; y4; m1; m2; d1; d2; h1; h2; n1; n2; c1; c2]
      && Ascii.eqb s1 "-" && Ascii.eqb s2 "-" && Ascii.eqb s3 " "
      && Ascii.eqb s4 ":" && Ascii.eqb s5 ":"
  | _ => false
  end.

(** A directory separator of either convention. *)
Definition is_separator (a : ascii) : bool :=
  Ascii.eqb slash a || Ascii.eqb backslash a.

(** The final path component as the spec words it: everything up to and
    including the last directory separator of either convention is
    stripped. *)
Definition final_component (path : string) : string :=
  match rfind is_separator path with
  | Some k => at_offset (S k) path
  | None => path
  end.

End Contract.

Import CStr Dec Libc Errors Contract.

(** ** Derived notions the statements use *)

(** The process an outcome leaves. *)
Definition final {A : Type} (o : outcome A) : process :=
  match o with
  | Returned _ p => p
  | Aborted p => p
  end.

(** The timestamp field the handler prints in the process [p]: the array
    [datetime] as strftime leaves it. *)
Definition datetime_of (p : process) : string :=
  match strftime sizeof_datetime datetime_format (zone p (clock p)) with
  | Some s => s
  | None => stack_junk p
  end.

(** The text the handler hands to standard error in the process [p]. *)
Definition handler_text (cond msg file : string) (line : Z) (p : process)
  : string :=
  diagnostic_line (datetime_of p) (filename_of file) line cond
                  (errno p) (contract_strerror (errno p)) msg.

(** A sample process: 2026-10-30 09:05:07 local time, the last error is
    [POSIX_ENOENT], standard error can be written, nothing has happened
    yet. *)
Definition sample_tm : tm := mk_tm 7 5 9 30 9 126.

Definition sample_process : process :=
  mk_process 2 1793351107 (fun _ => sample_tm) true "" [].

(** ** The pause of the demonstration ([demo_contract.h]) *)

Module Demo.

(** The terminal of the demonstration: the characters standard input
    still holds (end-of-file once they are read) and the texts handed to
    standard output, oldest first. *)
Record console : Set := mk_console {
  stdin : string;
  stdout : list string
}.

(** [getchar()]: the next character of standard input, or [EOF]
    ([None]); at end-of-file every further call is [EOF] again. *)
Definition getchar (c : console) : option ascii * console :=
  match stdin c with
  | "" => (None, c)
  | String a rest => (Some a, mk_console rest (stdout c))
  end.

(** [printf(format)] without conversions, to standard output. *)
Definition printf (format : string) (c : console) : console :=
  mk_console (stdin c) (stdout c ++ [printf_text format []]).

(** [while (getchar() != '\n') { }]: [EOF] is not ['\n'], so the loop
    goes on at end-of-file. [None]: the loop is still running when the fuel
    is used up. *)
Fixpoint wait_newline (fuel : nat) (c : console) : option console :=
  match fuel with
  | O => None
  | S fuel' =>
      let (ch, c') := getchar c in
      match ch with
      | Some a => if Ascii.eqb a LF then Some c' else wait_newline fuel' c'
      | None => wait_newline fuel' c'
      end
  end.

Definition pause_prompt : string := ">>> Press Enter to continue...".

(** The macro [PAUSE()] of [demo_contracts]. *)
Definition PAUSE (fuel : nat) (c : console) : option console :=
  let c := printf pause_prompt c in
  match wait_newline fuel c with
  | Some c => Some (printf newline c)
  | None => None
  end.

End Demo.

(** ** The handler on a host whose library may fail

    [Libc] and [Contract] run the handler where the library is on its good
    path: the clock calls succeed and leave [errno] alone, and standard
    error puts a text out during the call. [Hosted] runs the same code
    against the library as the C standard leaves it: a library call may
    set [errno], [localtime] may return the null pointer, standard error
    may be fully buffered, and [abort] need not flush it. *)

Module Hosted.

(** The library calls the handler makes before it reads [errno]. *)
Inductive lib_call : Set :=
  | Call_time
  | Call_localtime
  | Call_strftime.

(** How standard error is buffered. A line-buffered stream puts out a
    text that ends its line as an unbuffered one does, and the diagnostic
    ends in a line feed, so it counts as [Unbuffered] here. *)
Inductive buffering : Set :=
  | Unbuffered
  | Fully_buffered.

Record host : Type := mk_host {
  errno : Z;                        (* the thread's last error number *)
  clock : Z;                        (* what time(NULL) reads *)
  zone : Z -> option tm;            (* localtime; None: the null pointer *)
  disturbs : lib_call -> option Z;  (* the errno a call leaves, if it sets one *)
  stderr_ok : bool;                 (* can standard error be written? *)
  stderr_mode : buffering;
  stderr_buffer : string;           (* text the stream holds back *)
  abort_flushes : bool;             (* does abort flush open streams? *)
  stack_junk : string;              (* what an indeterminate array reads as *)
  trace : list event                (* the events so far, oldest first *)
}.

Definition with_errno (e : Z) (h : host) : host :=
  mk_host e (clock h) (zone h) (disturbs h) (stderr_ok h) (stderr_mode h)
          (stderr_buffer h) (abort_flushes h) (stack_junk h) (trace h).

Definition with_buffer (b : string) (h : host) : host :=
  mk_host (errno h) (clock h) (zone h) (disturbs h) (stderr_ok h)
          (stderr_mode h) b (abort_flushes h) (stack_junk h) (trace h).

Definition emit (e : event) (h : host) : host :=
  mk_host (errno h) (clock h) (zone h) (disturbs h) (stderr_ok h)
          (stderr_mode h) (stderr_buffer h) (abort_flushes h) (stack_junk h)
          (trace h ++ [e]).

(** The host once the library call [c] has returned. *)
Definition after (c : lib_call) (h : host) : host :=
  match disturbs h c with
  | Some e => with_errno e h
  | None => h
  end.

(** A call returns, ends the process by [abort], or has no defined
    behaviour (here: an access through the null pointer). *)
Inductive outcome (A : Type) : Type :=
  | Returned (a : A) (h : host)
  | Aborted (h : host)
  | Undefined (h : host).

Arguments Returned {A} a h.
Arguments Aborted {A} h.
Arguments Undefined {A} h.

Definition proc (A : Type) : Type := host -> outcome A.

Definition ret {A : Type} (a : A) : proc A := fun h => Returned a h.

Definition bind {A B : Type} (c : proc A) (k : A -> proc B) : proc B :=
  fun h =>
    match c h with
    | Returned a h' => k a h'
    | Aborted h' => Aborted h'
    | Undefined h' => Undefined h'
    end.

Declare Scope hosted_scope.
Delimit Scope hosted_scope with hosted.
Notation "x <- c ;; k" := (bind c (fun x => k))
  (at level 61, c at next level, right associativity) : hosted_scope.
Notation "c ;; k" := (bind c (fun _ => k))
  (at level 61, right associativity) : hosted_scope.
Local Open Scope hosted_scope.

(** [time(NULL)]. *)
Definition time : proc Z :=
  fun h => Returned (clock h) (after Call_time h).

(** [localtime(&t)]: a pointer to a broken-down time, or null. *)
Definition localtime (t : Z) : proc (option tm) :=
  fun h => Returned (zone h t) (after Call_localtime h).

(** [strftime(s, maxsize, format, tm_info)]: reads through [tm_info];
    behaviour is undefined when that is the null pointer. *)
Definition strftime_call (maxsize : nat) (format : string)
    (tm_info : option tm) : proc (option string) :=
  fun h =>
    match tm_info with
    | Some t => Returned (strftime maxsize format t) (after Call_strftime h)
    | None => Undefined h
    end.

Definition read_errno : proc Z := fun h => Returned (errno h) h.

Definition read_array (a : option string) : proc string :=
  fun h =>
    match a with
    | Some s => Returned s h
    | None => Returned (stack_junk h) h
    end.

Definition call_contract_strerror (err : Z) : proc string :=
  ret (contract_strerror err).

(** [fprintf(stderr, format, ...)]. An unbuffered stream puts the text
    out during the call, or fails when it cannot be written; a fully
    buffered stream keeps the text. *)
Definition fprintf_stderr (format : string) (args : list printf_arg)
  : proc Z :=
  fun h =>
    let text := printf_text format args in
    match stderr_mode h with
    | Unbuffered =>
        if stderr_ok h
        then Returned (Z.of_nat (String.length text))
                      (emit (Stderr_write text) h)
        else Returned (-1) h
    | Fully_buffered =>
        Returned (Z.of_nat (String.length text))
                 (with_buffer (stderr_buffer h ++ text) h)
    end.

(** What the stream holds back: nothing when it is unbuffered. *)
Definition pending (h : host) : string :=
  match stderr_mode h with
  | Unbuffered => ""
  | Fully_buffered => stderr_buffer h
  end.

(** Flushing standard error: what the stream holds back goes out, when
    the stream can be written, and is lost otherwise. *)
Definition flush_stderr (h : host) : host :=
  match pending h with
  | "" => h
  | String _ _ =>
      with_buffer ""
        (if stderr_ok h then emit (Stderr_write (pending h)) h else h)
  end.

(** [abort()]: does not return; whether it flushes open streams is up to
    the implementation. *)
Definition abort {A : Type} : proc A :=
  fun h =>
    Aborted (emit Abort_signal (if abort_flushes h then flush_stderr h else h)).

(** [void _contract_fail(const char *cond, const char *msg,
                         const char *file, int line)], statement by
    statement as in [contract.c]; the result of [localtime] goes to
    [strftime] unchecked, [errno] is read in the argument list of
    [fprintf], and nothing flushes standard error before [abort]. *)
Definition _contract_fail (cond msg file : string) (line : Z) : proc unit :=
  now <- time ;;
  let filename := filename_of file in
  tm_info <- localtime now ;;
  datetime <- strftime_call sizeof_datetime datetime_format tm_info ;;
  datetime <- read_array datetime ;;
  code <- read_errno ;;
  err <- read_errno ;;
  phrase <- call_contract_strerror err ;;
  fprintf_stderr diagnostic_format
    [Arg_s datetime; Arg_s filename; Arg_d line; Arg_s cond;
     Arg_d code; Arg_s phrase; Arg_s msg] ;;
  abort.

(** The host an outcome leaves. *)
Definition final {A : Type} (o : outcome A) : host :=
  match o with
  | Returned _ h => h
  | Aborted h => h
  | Undefined h => h
  end.

(** The host as the handler enters [fprintf]: [time], [localtime] and
    [strftime] have returned. *)
Definition at_report (h : host) : host :=
  after Call_strftime (after Call_localtime (after Call_time h)).

(** [errno] as the argument list of [fprintf] reads it. *)
Definition errno_at_report (h : host) : Z := errno (at_report h).

(** The array [datetime] as [%s] reads it, for the broken-down time
    [t]. *)
Definition datetime_at_report (t : tm) (h : host) : string :=
  match strftime sizeof_datetime datetime_format t with
  | Some s => s
  | None => stack_junk h
  end.

(** The text the handler hands to [fprintf]. *)
Definition report_text (cond msg file : string) (line : Z) (t : tm)
    (h : host) : string :=
  diagnostic_line (datetime_at_report t h) (filename_of file) line cond
                  (errno_at_report h) (contract_strerror (errno_at_report h))
                  msg.

(** Does a text handed to standard error reach the outside before the
    process is gone? *)
Definition emits (h : host) : bool :=
  stderr_ok h &&
  match stderr_mode h with
  | Unbuffered => true
  | Fully_buffered => abort_flushes h
  end.

(** No library call of the handler sets [errno]. *)
Definition undisturbed (h : host) : Prop :=
  forall c, disturbs h c = None.

(** The host of the good path that a process of [Libc] stands for. *)
Definition good_host (p : process) : host :=
  mk_host (Libc.errno p) (Libc.clock p) (fun t => Some (Libc.zone p t))
          (fun _ => None) (Libc.stderr_ok p) Unbuffered "" false
          (Libc.stack_junk p) (Libc.trace p).

(** A host with the sample clock, entered with [POSIX_EINVAL] in
    [errno]. *)
Definition sample_host (d : lib_call -> option Z) (z : Z -> option tm)
    (mode : buffering) : host :=
  mk_host 22 1793351107 z d true mode "" false "" [].

(** [localtime] leaving [POSIX_ENOENT] behind, as after a failed look-up
    of the time zone file. *)
Definition localtime_sets_enoent (c : lib_call) : option Z :=
  match c with
  | Call_localtime => Some 2
  | _ => None
  end.

End Hosted.

(** ** Decimal output *)

Section Decimal.

Lemma digit_char_is_digit (d : Z) :
  0 <= d <= 9 -> is_digit (digit_char d) = true.
Proof.
  intros H.
  assert (E : d = 0 \/ d = 1 \/ d = 2 \/ d = 3 \/ d = 4 \/ d = 5 \/
              d = 6 \/ d = 7 \/ d = 8 \/ d = 9) by lia.
  repeat (destruct E as [E | E]; [subst d; reflexivity |]).
  subst d; reflexivity.
Qed.

Lemma digits_of_all_digits (fuel : nat) :
  forall n acc, 0 <= n -> all_char is_digit acc = true ->
                all_char is_digit (digits_of fuel n acc) = true.
Proof.
  induction fuel as [| fuel IH]; intros n acc Hn Hacc; cbn [digits_of].
  - exact Hacc.
  - assert (Hd : all_char is_digit (String (digit_char (n mod 10)) acc) = true).
    { cbn [all_char]. rewrite Hacc, digit_char_is_digit; [reflexivity |].
      pose proof (Z.mod_pos_bound n 10). lia. }
    destruct (n <? 10); [exact Hd |].
    apply IH; [| exact Hd].
    apply Z.div_pos; lia.
Qed.

Lemma print_unsigned_all_digits (n : Z) :
  0 <= n -> all_char is_digit (print_unsigned n) = true.
Proof.
  intros Hn. unfold print_unsigned. now apply digits_of_all_digits.
Qed.

Lemma digits_of_length_1 (fuel : nat) (n : Z) (acc : string) :
  0 <= n < 10 ->
  String.length (digits_of (S fuel) n acc) = S (String.length acc).
Proof.
  intros Hn. cbn [digits_of].
  destruct (n <? 10) eqn:E; [reflexivity |].
  apply Z.ltb_ge in E. lia.
Qed.

Lemma digits_of_length_step (fuel : nat) (n : Z) (acc : string) :
  10 <= n ->
  digits_of (S fuel) n acc =
  digits_of fuel (n / 10) (String (digit_char (n mod 10)) acc).
Proof.
  intros Hn. cbn [digits_of].
  destruct (n <? 10) eqn:E; [| reflexivity].
  apply Z.ltb_lt in E. lia.
Qed.

Lemma digits_of_length_2 (fuel : nat) (n : Z) (acc : string) :
  10 <= n < 100 ->
  String.length (digits_of (S (S fuel)) n acc) = S (S (String.length acc)).
Proof.
  intros Hn. rewrite digits_of_length_step by lia.
  rewrite digits_of_length_1; [reflexivity |].
  split; [apply Z.div_pos; lia | apply Z.div_lt_upper_bound; lia].
Qed.

Lemma digits_of_length_3 (fuel : nat) (n : Z) (acc : string) :
  100 <= n < 1000 ->
  String.length (digits_of (S (S (S fuel))) n acc)
  = S (S (S (String.length acc))).
Proof.
  intros Hn. rewrite digits_of_length_step by lia.
  rewrite digits_of_length_2; [reflexivity |].
  split; [apply Z.div_le_lower_bound; lia | apply Z.div_lt_upper_bound; lia].
Qed.

Lemma digits_of_length_4 (fuel : nat) (n : Z) (acc : string) :
  1000 <= n < 10000 ->
  String.length (digits_of (S (S (S (S fuel)))) n acc)
  = S (S (S (S (String.length acc)))).
Proof.
  intros Hn. rewrite digits_of_length_step by lia.
  rewrite digits_of_length_3; [reflexivity |].
  split; [apply Z.div_le_lower_bound; lia | apply Z.div_lt_upper_bound; lia].
Qed.

(** The fuel [print_unsigned] gives is at least [k+1] from [2^k] on. *)
Lemma fuel_from (k : nat) (n : Z) :
  2 ^ Z.of_nat k <= n ->
  exists fuel, Z.to_nat (Z.log2 n) = (k + fuel)%nat.
Proof.
  intros Hn.
  assert (Hk : Z.of_nat k <= Z.log2 n).
  { rewrite <- (Z.log2_pow2 (Z.of_nat k)) by lia. now apply Z.log2_le_mono. }
  exists (Z.to_nat (Z.log2 n) - k)%nat. lia.
Qed.

Lemma print_int_length_1 (n : Z) :
  0 <= n < 10 -> String.length (print_int n) = 1%nat.
Proof.
  intros Hn. unfold print_int, print_unsigned.
  destruct (n <? 0) eqn:E; [apply Z.ltb_lt in E; lia |].
  now rewrite digits_of_length_1.
Qed.

Lemma print_int_length_2 (n : Z) :
  10 <= n < 100 -> String.length (print_int n) = 2%nat.
Proof.
  intros Hn. unfold print_int, print_unsigned.
  destruct (n <? 0) eqn:E; [apply Z.ltb_lt in E; lia |].
  destruct (fuel_from 1 n) as [fuel Hf]; [change (2 ^ Z.of_nat 1) with 2; lia |].
  rewrite Hf. cbn [Nat.add]. now rewrite digits_of_length_2.
Qed.

Lemma print_int_length_4 (n : Z) :
  1000 <= n < 10000 -> String.length (print_int n) = 4%nat.
Proof.
  intros Hn. unfold print_int, print_unsigned.
  destruct (n <? 0) eqn:E; [apply Z.ltb_lt in E; lia |].
  destruct (fuel_from 3 n) as [fuel Hf]; [change (2 ^ Z.of_nat 3) with 8; lia |].
  rewrite Hf. cbn [Nat.add]. now rewrite digits_of_length_4.
Qed.

Lemma print_int_all_digits (n : Z) :
  0 <= n -> all_char is_digit (print_int n) = true.
Proof.
  intros Hn. unfold print_int.
  destruct (n <? 0) eqn:E; [apply Z.ltb_lt in E; lia |].
  now apply print_unsigned_all_digits.
Qed.

Lemma pad2_length (n : Z) :
  0 <= n < 100 -> String.length (pad2 n) = 2%nat.
Proof.
  intros Hn. unfold pad2.
  destruct (Z_lt_le_dec n 10) as [Hlt | Hge].
  - rewrite print_int_length_1 by lia. cbn [Nat.ltb Nat.leb String.length].
    now rewrite print_int_length_1 by lia.
  - rewrite print_int_length_2 by lia. cbn [Nat.ltb Nat.leb].
    now rewrite print_int_length_2 by lia.
Qed.

Lemma pad2_all_digits (n : Z) :
  0 <= n -> all_char is_digit (pad2 n) = true.
Proof.
  intros Hn. unfold pad2.
  destruct (String.length (print_int n) <? 2)%nat; cbn [all_char];
    now rewrite print_int_all_digits.
Qed.

End Decimal.

(** ** C strings *)

Section Strings.

Variable p : ascii -> bool.

Lemma length_app (s1 s2 : string) :
  String.length (s1 ++ s2) = (String.length s1 + String.length s2)%nat.
Proof.
  induction s1 as [| a s1 IH]; cbn [append String.length Nat.add].
  - reflexivity.
  - now rewrite IH.
Qed.

Lemma any_char_app (s1 s2 : string) :
  any_char p (s1 ++ s2) = any_char p s1 || any_char p s2.
Proof.
  induction s1 as [| a s1 IH]; cbn [append any_char].
  - reflexivity.
  - now rewrite IH, orb_assoc.
Qed.

Lemma count_char_app (s1 s2 : string) :
  count_char p (s1 ++ s2) = (count_char p s1 + count_char p s2)%nat.
Proof.
  induction s1 as [| a s1 IH]; cbn [append count_char].
  - reflexivity.
  - rewrite IH. lia.
Qed.

Lemma count_char_none (s : string) :
  any_char p s = false -> count_char p s = O.
Proof.
  induction s as [| a s IH]; cbn [any_char count_char]; intros H.
  - reflexivity.
  - apply orb_false_elim in H. destruct H as [Ha Hs].
    now rewrite Ha, IH.
Qed.

Lemma any_char_at_offset (k : nat) :
  forall s, any_char p s = false -> any_char p (at_offset k s) = false.
Proof.
  induction k as [| k IH]; intros s H.
  - now destruct s.
  - destruct s as [| a s]; cbn [at_offset]; [reflexivity |].
    apply IH. cbn [any_char] in H. now apply orb_false_elim in H.
Qed.

Lemma rfind_none (s : string) :
  any_char p s = false -> rfind p s = None.
Proof.
  induction s as [| a s IH]; cbn [any_char rfind]; intros H.
  - reflexivity.
  - apply orb_false_elim in H. destruct H as [Ha Hs].
    now rewrite IH, Ha.
Qed.

Lemma rfind_some (s : string) :
  any_char p s = true -> exists k, rfind p s = Some k.
Proof.
  induction s as [| a s IH]; cbn [any_char rfind]; intros H.
  - discriminate.
  - destruct (any_char p s) eqn:Hs.
    + destruct IH as [k Hk]; [reflexivity |]. rewrite Hk. now exists (S k).
    + rewrite rfind_none by exact Hs.
      rewrite orb_false_r in H. rewrite H. now exists O.
Qed.

(** When no character satisfies [q], looking for [p] or [q] is looking
    for [p]. *)
Lemma rfind_orb_l (q : ascii -> bool) (s : string) :
  any_char q s = false ->
  rfind (fun a => p a || q a) s = rfind p s.
Proof.
  induction s as [| a s IH]; cbn [any_char rfind]; intros H.
  - reflexivity.
  - apply orb_false_elim in H. destruct H as [Ha Hs].
    now rewrite IH, Ha, orb_false_r.
Qed.

Lemma rfind_orb_r (q : ascii -> bool) (s : string) :
  any_char q s = false ->
  rfind (fun a => q a || p a) s = rfind p s.
Proof.
  induction s as [| a s IH]; cbn [any_char rfind]; intros H.
  - reflexivity.
  - apply orb_false_elim in H. destruct H as [Ha Hs].
    now rewrite IH, Ha.
Qed.

End Strings.

Lemma ends_with_app_r (c : ascii) (s1 s2 : string) :
  ends_with c s2 = true -> ends_with c (s1 ++ s2) = true.
Proof.
  intros H. induction s1 as [| a s1 IH]; cbn [append]; [exact H |].
  cbn [ends_with]. destruct (s1 ++ s2) eqn:E; [| exact IH].
  destruct s1; [| discriminate]. cbn [append] in E. subst s2. discriminate.
Qed.

Lemma digit_not_LF (a : ascii) : is_digit a = true -> is_LF a = false.
Proof.
  destruct a as [[] [] [] [] [] [] [] []]; intros H;
    solve [reflexivity | discriminate H].
Qed.

Lemma all_digits_no_LF (s : string) :
  all_char is_digit s = true -> any_char is_LF s = false.
Proof.
  induction s as [| a s IH]; cbn [all_char any_char]; intros H.
  - reflexivity.
  - apply andb_prop in H. destruct H as [Ha Hs].
    now rewrite (digit_not_LF a Ha), IH.
Qed.

Lemma print_int_no_LF (n : Z) : any_char is_LF (print_int n) = false.
Proof.
  unfold print_int. destruct (n <? 0) eqn:E.
  - apply Z.ltb_lt in E. cbn [any_char].
    rewrite all_digits_no_LF; [reflexivity |].
    apply print_unsigned_all_digits. lia.
  - apply Z.ltb_ge in E. apply all_digits_no_LF.
    now apply print_unsigned_all_digits.
Qed.

(** ** The timestamp *)

Section Timestamp.

Lemma datetime_text (t : tm) :
  strftime_text datetime_format t =
  print_int (year_of t) ++ "-" ++ pad2 (tm_mon t + 1) ++ "-" ++
  pad2 (tm_mday t) ++ " " ++ pad2 (tm_hour t) ++ ":" ++
  pad2 (tm_min t) ++ ":" ++ pad2 (tm_sec t) ++ "".
Proof. reflexivity. Qed.

Lemma length_2_inv (s : string) :
  String.length s = 2%nat -> exists a b, s = String a (String b "").
Proof.
  destruct s as [| a [| b [| c s]]]; try discriminate. now exists a, b.
Qed.

Lemma length_4_inv (s : string) :
  String.length s = 4%nat ->
  exists a b c d, s = String a (String b (String c (String d ""))).
Proof.
  destruct s as [| a [| b [| c [| d [| e s]]]]]; try discriminate.
  now exists a, b, c, d.
Qed.

(** Four digits, then five groups of two digits, with the separators of
    the format, make a timestamp of 19 characters. *)
Lemma is_timestamp_fields (Y m d H M S : string) :
  String.length Y = 4%nat -> all_char is_digit Y = true ->
  String.length m = 2%nat -> all_char is_digit m = true ->
  String.length d = 2%nat -> all_char is_digit d = true ->
  String.length H = 2%nat -> all_char is_digit H = true ->
  String.length M = 2%nat -> all_char is_digit M = true ->
  String.length S = 2%nat -> all_char is_digit S = true ->
  let s := Y ++ "-" ++ m ++ "-" ++ d ++ " " ++ H ++ ":" ++ M ++ ":" ++ S ++ ""
  in String.length s = 19%nat /\ is_timestamp s = true.
Proof.
  intros LY DY Lm Dm Ld Dd LH DH LM DM LS DS.
  destruct (length_4_inv Y LY) as (y1 & y2 & y3 & y4 & ->).
  destruct (length_2_inv m Lm) as (m1 & m2 & ->).
  destruct (length_2_inv d Ld) as (d1 & d2 & ->).
  destruct (length_2_inv H LH) as (h1 & h2 & ->).
  destruct (length_2_inv M LM) as (n1 & n2 & ->).
  destruct (length_2_inv S LS) as (c1 & c2 & ->).
  cbn [all_char] in DY, Dm, Dd, DH, DM, DS.
  repeat match goal with
         | E : _ && _ = true |- _ => apply andb_prop in E; destruct E
         end.
  cbv zeta. split; [reflexivity |].
  unfold is_timestamp.
  cbn [append list_ascii_of_string forallb].
  repeat match goal with
         | E : is_digit _ = true |- _ => rewrite E; clear E
         end.
  reflexivity.
Qed.

(** A broken-down time in range with a four-digit year renders as 19
    characters of the shape [YYYY-MM-DD HH:MM:SS]. *)
Lemma datetime_text_shape (t : tm) :
  tm_in_range t -> 1000 <= year_of t <= 9999 ->
  String.length (strftime_text datetime_format t) = 19%nat /\
  is_timestamp (strftime_text datetime_format t) = true.
Proof.
  intros (Hs & Hm & Hh & Hd & Hmon) Hy.
  rewrite datetime_text.
  apply is_timestamp_fields;
    first [ apply print_int_length_4; lia
          | apply pad2_length; lia
          | apply print_int_all_digits; lia
          | apply pad2_all_digits; lia ].
Qed.

Lemma is_timestamp_no_LF (s : string) :
  is_timestamp s = true -> any_char is_LF s = false.
Proof.
  unfold is_timestamp. intros H.
  rewrite <- (string_of_list_ascii_of_string s).
  destruct (list_ascii_of_string s)
    as [| y1 [| y2 [| y3 [| y4 [| s1 [| m1 [| m2 [| s2 [| d1 [| d2 [| s3
       [| h1 [| h2 [| s4 [| n1 [| n2 [| s5 [| c1 [| c2 [| x l]]]]]]]]]]]]]]]]]]]];
    try discriminate H.
  cbn [forallb] in H.
  repeat match goal with
         | E : _ && _ = true |- _ => apply andb_prop in E; destruct E
         end.
  cbn [string_of_list_ascii any_char].
  repeat match goal with
         | E : is_digit _ = true |- _ =>
             rewrite (digit_not_LF _ E); clear E
         | E : Ascii.eqb ?a ?c = true |- _ =>
             apply Ascii.eqb_eq in E; subst a
         end.
  reflexivity.
Qed.

End Timestamp.

(** ** The phrase table *)

Section Table.

(** A property of the fallback and of every entry of the table is a
    property of every phrase the lookup returns. *)
Lemma contract_strerror_table (P : string -> bool) :
  P unknown_error = true ->
  forallb (fun o => match o with Some s => P s | None => true end)
          errno_to_msg = true ->
  forall err, P (contract_strerror err) = true.
Proof.
  intros Hu Ht err. unfold contract_strerror.
  destruct (err <? 0); [exact Hu |].
  destruct (nth_error errno_to_msg (Z.to_nat err)) as [[s |] |] eqn:E;
    try exact Hu.
  apply nth_error_In in E.
  rewrite forallb_forall in Ht. exact (Ht _ E).
Qed.

Lemma is_defined_code_sound (err : Z) :
  is_defined_code err = true -> defined_code err.
Proof.
  unfold is_defined_code. intros H.
  apply existsb_exists in H. destruct H as (e & _ & He).
  exists e. now apply Z.eqb_eq.
Qed.

(** Every entry of the table sits at the value of an enumerator. *)
Lemma errno_to_msg_entries_defined (n : nat) (s : string) :
  nth_error errno_to_msg n = Some (Some s) ->
  is_defined_code (Z.of_nat n) = true.
Proof.
  intros E.
  assert (Hn : (n < 132)%nat).
  { change 132%nat with (List.length errno_to_msg).
    apply nth_error_Some. now rewrite E. }
  assert (Hall : forallb
            (fun i => match nth_error errno_to_msg i with
                      | Some (Some _) => is_defined_code (Z.of_nat i)
                      | _ => true
                      end) (seq 0 132) = true) by (vm_compute; reflexivity).
  rewrite forallb_forall in Hall.
  specialize (Hall n). rewrite E in Hall.
  apply Hall. apply in_seq. lia.
Qed.

Lemma contract_strerror_nonempty (err : Z) : contract_strerror err <> "".
Proof.
  assert (H : negb (String.eqb (contract_strerror err) "") = true).
  { apply (contract_strerror_table (fun s => negb (String.eqb s "")));
      vm_compute; reflexivity. }
  apply negb_true_iff in H. now apply String.eqb_neq in H.
Qed.

Lemma contract_strerror_no_LF (err : Z) :
  any_char is_LF (contract_strerror err) = false.
Proof.
  apply negb_true_iff.
  apply (contract_strerror_table (fun s => negb (any_char is_LF s)));
    vm_compute; reflexivity.
Qed.

End Table.

(** ** Running the handler *)

Section Handler.

Variables (cond msg file : string) (line : Z).

Lemma diagnostic_format_text (datetime phrase : string) (err : Z) :
  printf_text diagnostic_format
    [Arg_s datetime; Arg_s (filename_of file); Arg_d line; Arg_s cond;
     Arg_d err; Arg_s phrase; Arg_s msg]
  = diagnostic_line datetime (filename_of file) line cond err phrase msg.
Proof. reflexivity. Qed.

(** The handler, step by step: the write when the stream takes it, then
    the abort. *)
Lemma contract_fail_run (p : process) :
  _contract_fail cond msg file line p =
  Aborted (emit Abort_signal
             (if stderr_ok p
              then emit (Stderr_write (handler_text cond msg file line p)) p
              else p)).
Proof.
  unfold _contract_fail, bind, time, localtime, read_array, read_errno,
    call_contract_strerror, ret, fprintf_stderr, abort, handler_text,
    datetime_of.
  cbv beta zeta.
  destruct (strftime sizeof_datetime datetime_format (zone p (clock p)));
    cbv beta iota; rewrite diagnostic_format_text;
    destruct (stderr_ok p); reflexivity.
Qed.

Lemma stderr_writes_app (tr1 tr2 : list event) :
  stderr_writes (tr1 ++ tr2) = (stderr_writes tr1 ++ stderr_writes tr2)%list.
Proof.
  induction tr1 as [| [text |] tr1 IH]; cbn [app stderr_writes].
  - reflexivity.
  - now rewrite IH.
  - exact IH.
Qed.

Lemma contract_fail_trace (p : process) :
  trace (final (_contract_fail cond msg file line p)) =
  (trace p ++
   (if stderr_ok p
    then [Stderr_write (handler_text cond msg file line p)] else []) ++
   [Abort_signal])%list.
Proof.
  rewrite contract_fail_run. cbn [final emit trace].
  destruct (stderr_ok p); cbn [emit trace].
  - now rewrite <- app_assoc.
  - reflexivity.
Qed.

Lemma contract_fail_stderr (p : process) :
  stderr_writes (trace (final (_contract_fail cond msg file line p))) =
  (stderr_writes (trace p) ++
   (if stderr_ok p then [handler_text cond msg file line p] else []))%list.
Proof.
  rewrite contract_fail_trace, !stderr_writes_app.
  destruct (stderr_ok p); cbn [stderr_writes app]; [reflexivity |].
  now rewrite app_nil_r.
Qed.

End Handler.

(** When strftime fits the array, the timestamp field is its text. *)
Lemma datetime_of_fits (p : process) :
  tm_in_range (zone p (clock p)) ->
  1000 <= year_of (zone p (clock p)) <= 9999 ->
  datetime_of p = strftime_text datetime_format (zone p (clock p)).
Proof.
  intros Hr Hy. unfold datetime_of, strftime.
  destruct (datetime_text_shape _ Hr Hy) as [Hlen _].
  now rewrite Hlen.
Qed.

(** ** The file name field *)

Section Filename.

Lemma filename_of_no_backslash (file : string) :
  any_char (Ascii.eqb backslash) file = false ->
  filename_of file = final_component file.
Proof.
  intros H. unfold filename_of, final_component, strrchr.
  rewrite (rfind_none _ _ H).
  replace (rfind is_separator file) with (rfind (Ascii.eqb slash) file).
  - now destruct (rfind (Ascii.eqb slash) file).
  - symmetry. exact (rfind_orb_l (Ascii.eqb slash) (Ascii.eqb backslash) file H).
Qed.

Lemma filename_of_no_slash (file : string) :
  any_char (Ascii.eqb slash) file = false ->
  filename_of file = final_component file.
Proof.
  intros H. unfold filename_of, final_component, strrchr.
  replace (rfind is_separator file) with (rfind (Ascii.eqb backslash) file).
  - destruct (rfind (Ascii.eqb backslash) file); [reflexivity |].
    now rewrite (rfind_none _ _ H).
  - symmetry. exact (rfind_orb_r (Ascii.eqb backslash) (Ascii.eqb slash) file H).
Qed.

(** On a path of one convention the handler's file name is the final
    component. *)
Lemma filename_of_single_convention (file : string) :
  any_char (Ascii.eqb backslash) file = false \/
  any_char (Ascii.eqb slash) file = false ->
  filename_of file = final_component file.
Proof.
  intros [H | H];
    [now apply filename_of_no_backslash | now apply filename_of_no_slash].
Qed.

Lemma no_separator_split (file : string) :
  any_char is_separator file = false ->
  any_char (Ascii.eqb backslash) file = false /\
  any_char (Ascii.eqb slash) file = false.
Proof.
  induction file as [| a file IH]; cbn [any_char]; intros H.
  - now split.
  - apply orb_false_elim in H. destruct H as [Ha Hf].
    unfold is_separator in Ha. apply orb_false_elim in Ha.
    destruct Ha as [Hs Hb]. destruct (IH Hf) as [IHb IHs].
    now rewrite Hs, Hb, IHb, IHs.
Qed.

Lemma filename_of_no_LF (file : string) :
  any_char is_LF file = false -> any_char is_LF (filename_of file) = false.
Proof.
  intros H. unfold filename_of. now apply any_char_at_offset.
Qed.

End Filename.

Lemma diagnostic_line_one_line
    (ts fn cond phrase msg : string) (line code : Z) :
  any_char is_LF ts = false -> any_char is_LF fn = false ->
  any_char is_LF cond = false -> any_char is_LF phrase = false ->
  any_char is_LF msg = false ->
  one_line (diagnostic_line ts fn line cond code phrase msg) = true.
Proof.
  intros Hts Hfn Hcond Hphrase Hmsg.
  unfold one_line, diagnostic_line.
  apply andb_true_intro; split.
  - do 14 apply ends_with_app_r. reflexivity.
  - rewrite !count_char_app.
    rewrite (count_char_none _ _ Hts), (count_char_none _ _ Hfn),
      (count_char_none _ _ Hcond), (count_char_none _ _ Hphrase),
      (count_char_none _ _ Hmsg),
      !(count_char_none _ _ (print_int_no_LF _)).
    reflexivity.
Qed.

(** * The statements of the specification *)

(** C2, refuted as stated: a message that holds a line feed makes the
    diagnostic two lines. *)
Lemma diagnostic_two_lines_counterexample :
  let msg := "Value out of bounds" ++ newline ++ "see the log" in
  let text :=
    "[2026-10-30 09:05:07] demo.c:42|zero|2(No such file or directory)|"
    ++ "Value out of bounds" ++ newline ++ "see the log" ++ newline in
  stderr_writes
    (trace (final (_contract_fail "zero" msg "demo.c" 42 sample_process)))
  = [text] /\
  count_char is_LF text = 2%nat /\
  one_line text = false.
Proof. vm_compute. repeat split; reflexivity. Qed.

(** C2, amended. For a local time in range whose year has four digits,
    and a condition text, message and source path without line feed, all
    [_contract_fail] writes to standard error is the text
    [[YYYY-MM-DD HH:MM:SS] basename:line|condition|code(phrase)|message]
    and a line feed, in this order, with the pipe as separator, and this
    text is one newline-terminated line. *)
Theorem diagnostic_is_one_formatted_line
    (cond msg file : string) (line : Z) (p : process) :
  tm_in_range (zone p (clock p)) ->
  1000 <= year_of (zone p (clock p)) <= 9999 ->
  any_char is_LF cond = false ->
  any_char is_LF msg = false ->
  any_char is_LF file = false ->
  exists ts text,
    is_timestamp ts = true /\
    text = diagnostic_line ts (filename_of file) line cond
                           (errno p) (contract_strerror (errno p)) msg /\
    stderr_writes (trace (final (_contract_fail cond msg file line p))) =
      (stderr_writes (trace p) ++ (if stderr_ok p then [text] else []))%list /\
    one_line text = true.
Proof.
  intros Hr Hy Hcond Hmsg Hfile.
  destruct (datetime_text_shape _ Hr Hy) as [_ Hts].
  exists (datetime_of p), (handler_text cond msg file line p).
  rewrite (datetime_of_fits p Hr Hy).
  split; [exact Hts |]. split.
  - unfold handler_text. now rewrite (datetime_of_fits p Hr Hy).
  - split; [apply contract_fail_stderr |].
    unfold handler_text. rewrite (datetime_of_fits p Hr Hy).
    apply diagnostic_line_one_line;
      auto using is_timestamp_no_LF, filename_of_no_LF,
                 contract_strerror_no_LF.
Qed.

Lemma diagnostic_is_one_formatted_line_witness :
  (tm_in_range (zone sample_process (clock sample_process)) /\
   1000 <= year_of (zone sample_process (clock sample_process)) <= 9999 /\
   any_char is_LF "zero" = false /\
   any_char is_LF "General pre-condition failed" = false /\
   any_char is_LF "/a/b/c.ext" = false) /\
  exists ts text,
    is_timestamp ts = true /\
    text = diagnostic_line ts (filename_of "/a/b/c.ext") 42 "zero"
             (errno sample_process)
             (contract_strerror (errno sample_process))
             "General pre-condition failed" /\
    stderr_writes
      (trace (final (_contract_fail "zero" "General pre-condition failed"
                                    "/a/b/c.ext" 42 sample_process))) =
      (stderr_writes (trace sample_process) ++
       (if stderr_ok sample_process then [text] else []))%list /\
    one_line text = true.
Proof.
  assert (Hr : tm_in_range (zone sample_process (clock sample_process)))
    by (unfold tm_in_range; cbn; lia).
  assert (Hy : 1000 <= year_of (zone sample_process (clock sample_process))
               <= 9999) by (unfold year_of; cbn; lia).
  split; [repeat split; solve [apply Hr | apply Hy | reflexivity] |].
  apply (diagnostic_is_one_formatted_line
           "zero" "General pre-condition failed" "/a/b/c.ext" 42
           sample_process Hr Hy); reflexivity.
Defined.

(** C3, the handler at a path that mixes the conventions: the backslash
    is looked for first, so a forward slash after the last backslash stays
    in the file name, where the final component the spec describes is
    [c.ext]. The two paths the spec names do render as [c.ext]. *)
Theorem filename_of_mixed_separators :
  filename_of "a\b/c.ext" = "b/c.ext" /\
  final_component "a\b/c.ext" = "c.ext" /\
  filename_of "/a/b/c.ext" = "c.ext" /\
  filename_of "a\b\c.ext" = "c.ext".
Proof. repeat split; reflexivity. Qed.

(** C4. A check whose condition is true returns at once and leaves the
    process as it was: no event, no diagnostic. A check whose condition is
    false is the call of the failure handler with the condition's text, the
    message and the location; it ends the process and does not return. *)
Theorem check_true_returns_false_fails
    (cat : category) (cond_text msg file : string) (line : Z) (p : process) :
  check true cat cond_text msg file line p = Returned tt p /\
  check false cat cond_text msg file line p
    = _contract_fail cond_text msg file line p /\
  (exists p', check false cat cond_text msg file line p = Aborted p') /\
  (forall q, check false cat cond_text msg file line p <> Returned tt q).
Proof.
  cbn [check]. rewrite contract_fail_run.
  repeat split; [eexists; reflexivity | discriminate].
Qed.

(** C5. [contract_strerror] is total with a non-empty result at every
    integer, and at an integer that is the value of no enumerator of
    [posix_error_t] the result is the fallback phrase [Unknown error]. *)
Theorem contract_strerror_fallback (err : Z) :
  contract_strerror err <> "" /\
  (~ defined_code err ->
   contract_strerror err = unknown_error /\ unknown_error = "Unknown error").
Proof.
  split; [apply contract_strerror_nonempty |].
  intros Hundef. split; [| reflexivity].
  unfold contract_strerror.
  destruct (err <? 0) eqn:Hneg; [reflexivity |].
  destruct (nth_error errno_to_msg (Z.to_nat err)) as [[s |] |] eqn:E;
    try reflexivity.
  exfalso. apply Hundef. apply is_defined_code_sound.
  apply Z.ltb_ge in Hneg.
  rewrite <- (Z2Nat.id err Hneg).
  exact (errno_to_msg_entries_defined _ _ E).
Qed.

Lemma contract_strerror_fallback_witness :
  ~ defined_code 15 /\ contract_strerror 15 = unknown_error.
Proof.
  assert (H : ~ defined_code 15).
  { intros [e He]. destruct e; discriminate He. }
  split; [exact H |].
  exact (proj1 (proj2 (contract_strerror_fallback 15) H)).
Defined.

(** C6. For every enumerator of [posix_error_t] the lookup returns a
    non-empty phrase; a call returns that phrase in whatever state the
    process is and leaves the process as it was, so two calls with one code
    give one result. *)
Theorem contract_strerror_defined_codes (e : posix_error_t) (p q : process) :
  contract_strerror (posix_code e) <> "" /\
  call_contract_strerror (posix_code e) p
    = Returned (contract_strerror (posix_code e)) p /\
  call_contract_strerror (posix_code e) q
    = Returned (contract_strerror (posix_code e)) q.
Proof.
  split; [| split; reflexivity].
  destruct e; vm_compute; discriminate.
Qed.

(** C7. The aliased enumerators, [POSIX_EAGAIN] and [POSIX_EWOULDBLOCK]
    (both 11), [POSIX_ENOTSUP] and [POSIX_EOPNOTSUPP] (both 95), resolve to
    one phrase each; so do any two enumerators of one value. *)
Theorem aliased_codes_one_phrase :
  (posix_code POSIX_EAGAIN = 11 /\ posix_code POSIX_EWOULDBLOCK = 11 /\
   phrase_of POSIX_EAGAIN = phrase_of POSIX_EWOULDBLOCK) /\
  (posix_code POSIX_ENOTSUP = 95 /\ posix_code POSIX_EOPNOTSUPP = 95 /\
   phrase_of POSIX_ENOTSUP = phrase_of POSIX_EOPNOTSUPP) /\
  (forall a b : posix_error_t,
      posix_code a = posix_code b -> phrase_of a = phrase_of b).
Proof.
  repeat split.
  intros a b Hab. unfold phrase_of. now rewrite Hab.
Qed.

Lemma aliased_codes_one_phrase_witness :
  posix_code POSIX_EAGAIN = posix_code POSIX_EWOULDBLOCK /\
  phrase_of POSIX_EAGAIN = phrase_of POSIX_EWOULDBLOCK.
Proof.
  split; [reflexivity |].
  exact (proj2 (proj2 aliased_codes_one_phrase)
               POSIX_EAGAIN POSIX_EWOULDBLOCK eq_refl).
Defined.

(** C9. A source path without a directory separator of either convention
    is the file name field, character for character. *)
Theorem filename_of_no_separator
    (cond msg file : string) (line : Z) (p : process) :
  any_char is_separator file = false ->
  filename_of file = file /\
  handler_text cond msg file line p =
    diagnostic_line (datetime_of p) file line cond
                    (errno p) (contract_strerror (errno p)) msg.
Proof.
  intros H. destruct (no_separator_split file H) as [Hb Hs].
  assert (E : filename_of file = file).
  { unfold filename_of, strrchr.
    now rewrite (rfind_none _ _ Hb), (rfind_none _ _ Hs). }
  split; [exact E |]. unfold handler_text. now rewrite E.
Qed.

Lemma filename_of_no_separator_witness :
  any_char is_separator "demo.c" = false /\
  filename_of "demo.c" = "demo.c" /\
  handler_text "zero" "failed" "demo.c" 7 sample_process =
    diagnostic_line (datetime_of sample_process) "demo.c" 7 "zero"
                    (errno sample_process)
                    (contract_strerror (errno sample_process)) "failed".
Proof.
  split; [reflexivity |].
  apply (filename_of_no_separator "zero" "failed" "demo.c" 7 sample_process).
  reflexivity.
Defined.

(** C10. For a local time in range whose year has four digits, strftime
    with the handler's format produces 19 characters of the shape
    [YYYY-MM-DD HH:MM:SS]; with the terminating NUL they fit the 20 bytes of
    [datetime], so the call succeeds and the timestamp field of the
    diagnostic is this text, whole. *)
Theorem timestamp_never_truncated (p : process) :
  tm_in_range (zone p (clock p)) ->
  1000 <= year_of (zone p (clock p)) <= 9999 ->
  exists ts,
    strftime sizeof_datetime datetime_format (zone p (clock p)) = Some ts /\
    String.length ts = 19%nat /\
    (String.length ts + 1 <= sizeof_datetime)%nat /\
    is_timestamp ts = true /\
    datetime_of p = ts.
Proof.
  intros Hr Hy.
  destruct (datetime_text_shape _ Hr Hy) as [Hlen Hts].
  exists (strftime_text datetime_format (zone p (clock p))).
  repeat split.
  - unfold strftime. now rewrite Hlen.
  - exact Hlen.
  - rewrite Hlen. unfold sizeof_datetime. lia.
  - exact Hts.
  - now apply datetime_of_fits.
Qed.

Lemma timestamp_never_truncated_witness :
  tm_in_range (zone sample_process (clock sample_process)) /\
  1000 <= year_of (zone sample_process (clock sample_process)) <= 9999 /\
  exists ts,
    strftime sizeof_datetime datetime_format
             (zone sample_process (clock sample_process)) = Some ts /\
    String.length ts = 19%nat /\
    (String.length ts + 1 <= sizeof_datetime)%nat /\
    is_timestamp ts = true /\
    datetime_of sample_process = ts.
Proof.
  assert (Hr : tm_in_range (zone sample_process (clock sample_process)))
    by (unfold tm_in_range; cbn; lia).
  assert (Hy : 1000 <= year_of (zone sample_process (clock sample_process))
               <= 9999) by (unfold year_of; cbn; lia).
  split; [exact Hr |]. split; [exact Hy |].
  exact (timestamp_never_truncated sample_process Hr Hy).
Defined.

(** ** The scenarios of the spec, and the edges of the timestamp *)

Example scenario_precondition :
  stderr_writes
    (trace (final (_contract_fail "zero" "General pre-condition failed"
                                  "/home/dev/demo/demo_contract.h" 42
                                  sample_process)))
  = ["[2026-10-30 09:05:07] demo_contract.h:42|zero|"
     ++ "2(No such file or directory)|General pre-condition failed"
     ++ newline].
Proof. reflexivity. Qed.

Example scenario_range_no_error :
  let p := mk_process 0 1793351107 (fun _ => sample_tm) true "" [] in
  stderr_writes
    (trace (final (check false Numeric "val" "Value out of valid bounds [0..100]"
                         "demo_contract.h" 68 p)))
  = ["[2026-10-30 09:05:07] demo_contract.h:68|val|"
     ++ "0(No error; operation succeeded)|Value out of valid bounds [0..100]"
     ++ newline].
Proof. reflexivity. Qed.

Example stream_unavailable_still_aborts :
  let p := mk_process 9 1793351107 (fun _ => sample_tm) false "" [] in
  _contract_fail "fd >= 0" "Invalid file descriptor" "io.c" 10 p
  = Aborted (mk_process 9 1793351107 (fun _ => sample_tm) false ""
                        [Abort_signal]).
Proof. reflexivity. Qed.

(** From the year 10000 on the text needs 21 bytes: strftime fails and
    the array is left indeterminate. *)
Example strftime_year_10000 :
  strftime sizeof_datetime datetime_format (mk_tm 0 0 0 1 0 8100) = None.
Proof. reflexivity. Qed.

Example strftime_leap_second :
  strftime sizeof_datetime datetime_format (mk_tm 60 59 23 31 11 116)
  = Some "2016-12-31 23:59:60".
Proof. reflexivity. Qed.

(** * Further properties of the code *)

(** ** Where the last match sits *)

Section Last_match.

Variable p : ascii -> bool.

Lemma rfind_none_inv (s : string) :
  rfind p s = None -> any_char p s = false.
Proof.
  intros H. destruct (any_char p s) eqn:E; [| reflexivity].
  destruct (rfind_some p s E) as [k Hk]. congruence.
Qed.

Lemma rfind_app_last (s1 s2 : string) (c : ascii) :
  p c = true -> any_char p s2 = false ->
  rfind p (s1 ++ String c s2) = Some (String.length s1).
Proof.
  intros Hc H2. induction s1 as [| a s1 IH]; cbn [append rfind String.length].
  - now rewrite (rfind_none p s2 H2), Hc.
  - now rewrite IH.
Qed.

Lemma at_offset_app (s1 s2 : string) :
  at_offset (String.length s1) (s1 ++ s2) = s2.
Proof.
  induction s1 as [| a s1 IH]; cbn [append String.length at_offset].
  - now destruct s2.
  - exact IH.
Qed.

(** A match found at [k] is the last one: [k] characters, the match, and
    a rest without match. *)
Lemma rfind_split (s : string) :
  forall k, rfind p s = Some k ->
  exists s1 c s2,
    s = s1 ++ String c s2 /\ String.length s1 = k /\
    p c = true /\ any_char p s2 = false /\ at_offset (S k) s = s2.
Proof.
  induction s as [| a s IH]; cbn [rfind]; intros k H; [discriminate |].
  destruct (rfind p s) as [k' |] eqn:E.
  - injection H as <-.
    destruct (IH k' eq_refl) as (s1 & c & s2 & -> & Hlen & Hc & H2 & Hoff).
    exists (String a s1), c, s2. cbn [append String.length].
    repeat split; auto.
  - destruct (p a) eqn:Ha; [| discriminate]. injection H as <-.
    exists "", a, s. cbn [append String.length at_offset].
    repeat split; auto using rfind_none_inv.
Qed.

End Last_match.

(** X1. What [filename] points to, case by case as the code decides it:
    the text after the last backslash when the path has a backslash;
    else the text after the last forward slash when it has one; else the
    whole path. *)
Theorem filename_of_cases (file : string) :
  (exists dir,
      file = dir ++ String backslash (filename_of file) /\
      any_char (Ascii.eqb backslash) (filename_of file) = false) \/
  (any_char (Ascii.eqb backslash) file = false /\
   exists dir,
      file = dir ++ String slash (filename_of file) /\
      any_char (Ascii.eqb slash) (filename_of file) = false) \/
  (any_char is_separator file = false /\ filename_of file = file).
Proof.
  unfold filename_of, strrchr.
  destruct (rfind (Ascii.eqb backslash) file) as [k |] eqn:Eb.
  - left.
    destruct (rfind_split _ _ _ Eb) as (s1 & c & s2 & Hs & _ & Hc & H2 & Hoff).
    apply Ascii.eqb_eq in Hc. subst c.
    exists s1. rewrite Hoff. now split.
  - right. apply rfind_none_inv in Eb.
    destruct (rfind (Ascii.eqb slash) file) as [k |] eqn:Es.
    + left. split; [exact Eb |].
      destruct (rfind_split _ _ _ Es) as (s1 & c & s2 & Hs & _ & Hc & H2 & Hoff).
      apply Ascii.eqb_eq in Hc. subst c.
      exists s1. rewrite Hoff. now split.
    + right. apply rfind_none_inv in Es. split; [| now destruct file].
      clear - Eb Es. induction file as [| a file IH]; [reflexivity |].
      cbn [any_char] in *.
      apply orb_false_elim in Eb. destruct Eb as [Eb1 Eb2].
      apply orb_false_elim in Es. destruct Es as [Es1 Es2].
      unfold is_separator at 1. now rewrite Eb1, Es1, IH.
Qed.

(** X2. The file name field never holds a backslash, and it holds a
    forward slash only when the path holds a backslash. *)
Theorem filename_of_separators_left (file : string) :
  any_char (Ascii.eqb backslash) (filename_of file) = false /\
  (any_char (Ascii.eqb slash) (filename_of file) = true ->
   any_char (Ascii.eqb backslash) file = true).
Proof.
  destruct (filename_of_cases file)
    as [(dir & Hf & Hb) | [(Hb & dir & Hf & Hs) | (Hsep & Hf)]].
  - split; [exact Hb |]. intros _. rewrite Hf, any_char_app.
    cbn [any_char]. rewrite Ascii.eqb_refl. apply orb_true_r.
  - split; [| congruence].
    rewrite Hf, any_char_app in Hb. cbn [any_char] in Hb.
    apply orb_false_elim in Hb. destruct Hb as [_ Hb].
    now apply orb_false_elim in Hb.
  - destruct (no_separator_split file Hsep) as [Hb Hs].
    rewrite Hf. split; [exact Hb | congruence].
Qed.

Lemma filename_of_separators_left_witness :
  any_char (Ascii.eqb slash) (filename_of "a\b/c.ext") = true /\
  any_char (Ascii.eqb backslash) "a\b/c.ext" = true.
Proof.
  split; [reflexivity |].
  exact (proj2 (filename_of_separators_left "a\b/c.ext") eq_refl).
Defined.

(** X3. For a path [dir\name] whose [name] holds no backslash the file
    name field is [name], whatever [dir] is; a path that ends in a
    backslash gives the empty field. *)
Theorem filename_of_after_backslash (dir name : string) :
  any_char (Ascii.eqb backslash) name = false ->
  filename_of (dir ++ String backslash name) = name.
Proof.
  intros H. unfold filename_of, strrchr.
  rewrite (rfind_app_last _ dir name backslash (Ascii.eqb_refl _) H).
  change (S (String.length dir))
    with (String.length (String backslash dir)).
  replace (dir ++ String backslash name)
    with ((dir ++ String backslash "") ++ name).
  - replace (String.length (String backslash dir))
      with (String.length (dir ++ String backslash "")).
    + apply at_offset_app.
    + rewrite length_app. cbn [String.length]. lia.
  - clear. induction dir as [| a dir IH]; cbn [append]; [reflexivity |].
    now rewrite IH.
Qed.

Lemma filename_of_after_backslash_witness :
  any_char (Ascii.eqb backslash) "sub/demo.c" = false /\
  filename_of ("C:\src" ++ String backslash "sub/demo.c") = "sub/demo.c".
Proof.
  split; [reflexivity |].
  exact (filename_of_after_backslash "C:\src" "sub/demo.c" eq_refl).
Defined.

(** X4. For a path [dir/name] without any backslash whose [name] holds
    no forward slash the file name field is [name]; a path that ends in a
    forward slash gives the empty field. *)
Theorem filename_of_after_slash (dir name : string) :
  any_char (Ascii.eqb backslash) dir = false ->
  any_char is_separator name = false ->
  filename_of (dir ++ String slash name) = name.
Proof.
  intros Hd Hn. destruct (no_separator_split name Hn) as [Hnb Hns].
  unfold filename_of, strrchr.
  rewrite (rfind_none (Ascii.eqb backslash)).
  - rewrite (rfind_app_last _ dir name slash (Ascii.eqb_refl _) Hns).
    change (S (String.length dir))
      with (String.length (String slash dir)).
    replace (dir ++ String slash name)
      with ((dir ++ String slash "") ++ name).
    + replace (String.length (String slash dir))
        with (String.length (dir ++ String slash "")).
      * apply at_offset_app.
      * rewrite length_app. cbn [String.length]. lia.
    + clear. induction dir as [| a dir IH]; cbn [append]; [reflexivity |].
      now rewrite IH.
  - rewrite any_char_app. cbn [any_char]. now rewrite Hd, Hnb.
Qed.

Lemma filename_of_after_slash_witness :
  any_char (Ascii.eqb backslash) "/home/dev/demo" = false /\
  any_char is_separator "" = false /\
  filename_of ("/home/dev/demo" ++ String slash "") = "".
Proof.
  split; [reflexivity |]. split; [reflexivity |].
  exact (filename_of_after_slash "/home/dev/demo" "" eq_refl eq_refl).
Defined.

Lemma at_offset_app_cons (s1 s2 : string) (c : ascii) :
  at_offset (S (String.length s1)) (s1 ++ String c s2) = s2.
Proof.
  induction s1 as [| a s1 IH]; cbn [append String.length at_offset].
  - now destruct s2.
  - exact IH.
Qed.

Lemma separator_join (s : string) :
  any_char (Ascii.eqb backslash) s = false ->
  any_char (Ascii.eqb slash) s = false ->
  any_char is_separator s = false.
Proof.
  induction s as [| a s IH]; cbn [any_char]; intros Hb Hs; [reflexivity |].
  apply orb_false_elim in Hb. destruct Hb as [Hb1 Hb2].
  apply orb_false_elim in Hs. destruct Hs as [Hs1 Hs2].
  unfold is_separator at 1. now rewrite Hb1, Hs1, IH.
Qed.

Lemma final_component_no_separator (path : string) :
  any_char is_separator (final_component path) = false.
Proof.
  unfold final_component.
  destruct (rfind is_separator path) as [k |] eqn:E.
  - destruct (rfind_split _ _ _ E) as (_ & _ & s2 & _ & _ & _ & H2 & ->).
    exact H2.
  - now apply rfind_none_inv.
Qed.

Lemma final_component_after (dir name : string) (c : ascii) :
  is_separator c = true -> any_char is_separator name = false ->
  final_component (dir ++ String c name) = name.
Proof.
  intros Hc Hn. unfold final_component.
  rewrite (rfind_app_last _ dir name c Hc Hn).
  apply at_offset_app_cons.
Qed.

(** X5. The file name field is the final path component, as the spec
    words it, exactly when the field holds no forward slash. *)
Theorem filename_of_final_component_iff (file : string) :
  filename_of file = final_component file <->
  any_char (Ascii.eqb slash) (filename_of file) = false.
Proof.
  split.
  - intros E. rewrite E.
    now destruct (no_separator_split _ (final_component_no_separator file)).
  - intros Hs.
    destruct (filename_of_separators_left file) as [Hb _].
    pose proof (separator_join _ Hb Hs) as Hsep.
    destruct (filename_of_cases file)
      as [(dir & Hf & _) | [(_ & dir & Hf & _) | (_ & Hf)]].
    + remember (filename_of file) as f. rewrite Hf.
      symmetry. now apply final_component_after.
    + remember (filename_of file) as f. rewrite Hf.
      symmetry. now apply final_component_after.
    + rewrite Hf in Hsep. rewrite Hf. unfold final_component.
      now rewrite (rfind_none _ _ Hsep).
Qed.

(** ** The timestamp past four digits *)

Section Overflow.

Lemma digits_of_length_ge (fuel : nat) :
  forall n acc,
    (String.length acc <= String.length (digits_of fuel n acc))%nat.
Proof.
  induction fuel as [| fuel IH]; intros n acc; cbn [digits_of].
  - lia.
  - destruct (n <? 10); cbn [String.length].
    + lia.
    + specialize (IH (n / 10) (String (digit_char (n mod 10)) acc)).
      cbn [String.length] in IH. lia.
Qed.

Lemma digits_of_length_pos (fuel : nat) (n : Z) (acc : string) :
  (S (String.length acc)
   <= String.length (digits_of (S fuel) n acc))%nat.
Proof.
  cbn [digits_of]. destruct (n <? 10); cbn [String.length].
  - lia.
  - pose proof (digits_of_length_ge fuel (n / 10)
                  (String (digit_char (n mod 10)) acc)) as H.
    cbn [String.length] in H. lia.
Qed.

Lemma print_int_length_pos (n : Z) : (1 <= String.length (print_int n))%nat.
Proof.
  unfold print_int, print_unsigned.
  destruct (n <? 0); cbn [String.length]; [lia |].
  pose proof (digits_of_length_pos (Z.to_nat (Z.log2 n)) n "") as H.
  cbn [String.length] in H. lia.
Qed.

Lemma pad2_length_ge (n : Z) : (2 <= String.length (pad2 n))%nat.
Proof.
  unfold pad2. pose proof (print_int_length_pos n) as H.
  destruct (String.length (print_int n) <? 2)%nat eqn:E.
  - cbn [String.length]. lia.
  - apply Nat.ltb_ge in E. exact E.
Qed.

Lemma print_int_length_ge_5 (n : Z) :
  10000 <= n -> (5 <= String.length (print_int n))%nat.
Proof.
  intros Hn. unfold print_int, print_unsigned.
  destruct (n <? 0) eqn:E; [apply Z.ltb_lt in E; lia |].
  destruct (fuel_from 13 n) as [fuel Hf];
    [change (2 ^ Z.of_nat 13) with 8192; lia |].
  rewrite Hf. cbn [Nat.add].
  assert (H1 : 1000 <= n / 10)
    by (apply Z.div_le_lower_bound; lia).
  assert (H2 : 100 <= n / 10 / 10)
    by (apply Z.div_le_lower_bound; lia).
  assert (H3 : 10 <= n / 10 / 10 / 10)
    by (apply Z.div_le_lower_bound; lia).
  rewrite !digits_of_length_step by lia.
  match goal with
  | |- (_ <= String.length (digits_of (S ?f) ?m ?acc))%nat =>
      pose proof (digits_of_length_pos f m acc) as H
  end.
  cbn [String.length] in H. exact H.
Qed.

End Overflow.

(** X6. From the year 10000 on the text of the timestamp and its NUL do
    not fit the 20 bytes of [datetime]: strftime fails, and the timestamp
    field of the diagnostic is whatever the array happens to hold. *)
Theorem timestamp_overflows_from_10000 (p : process) :
  10000 <= year_of (zone p (clock p)) ->
  strftime sizeof_datetime datetime_format (zone p (clock p)) = None /\
  datetime_of p = stack_junk p.
Proof.
  intros Hy.
  assert (E : strftime sizeof_datetime datetime_format (zone p (clock p))
              = None).
  { unfold strftime. rewrite datetime_text, !length_app.
    pose proof (print_int_length_ge_5 _ Hy).
    pose proof (pad2_length_ge (tm_mon (zone p (clock p)) + 1)).
    pose proof (pad2_length_ge (tm_mday (zone p (clock p)))).
    pose proof (pad2_length_ge (tm_hour (zone p (clock p)))).
    pose proof (pad2_length_ge (tm_min (zone p (clock p)))).
    pose proof (pad2_length_ge (tm_sec (zone p (clock p)))).
    cbn [String.length].
    destruct (_ <=? sizeof_datetime)%nat eqn:L; [| reflexivity].
    apply Nat.leb_le in L. unfold sizeof_datetime in L. lia. }
  split; [exact E |]. unfold datetime_of. now rewrite E.
Qed.

Lemma timestamp_overflows_from_10000_witness :
  let p := mk_process 0 253402300800 (fun _ => mk_tm 0 0 0 1 0 8100)
                      true "?" [] in
  10000 <= year_of (zone p (clock p)) /\
  strftime sizeof_datetime datetime_format (zone p (clock p)) = None /\
  datetime_of p = stack_junk p.
Proof.
  intros p.
  assert (Hy : 10000 <= year_of (zone p (clock p)))
    by (unfold year_of; cbn; lia).
  split; [exact Hy |].
  exact (timestamp_overflows_from_10000 p Hy).
Defined.

(** ** When the diagnostic is one line *)

Section One_line.

Lemma count_char_zero_iff (q : ascii -> bool) (s : string) :
  count_char q s = O <-> any_char q s = false.
Proof.
  split; [| apply count_char_none].
  induction s as [| a s IH]; cbn [count_char any_char]; intros H.
  - reflexivity.
  - destruct (q a); [discriminate H |].
    cbn [Nat.add orb] in *. now apply IH.
Qed.

Lemma diagnostic_line_ends
    (ts fn cond phrase msg : string) (line code : Z) :
  ends_with LF (diagnostic_line ts fn line cond code phrase msg) = true.
Proof.
  unfold diagnostic_line. do 14 apply ends_with_app_r. reflexivity.
Qed.

Lemma diagnostic_line_count
    (ts fn cond phrase msg : string) (line code : Z) :
  any_char is_LF ts = false -> any_char is_LF phrase = false ->
  count_char is_LF (diagnostic_line ts fn line cond code phrase msg) =
  S (count_char is_LF fn + count_char is_LF cond + count_char is_LF msg).
Proof.
  intros Hts Hphrase. unfold diagnostic_line.
  rewrite !count_char_app.
  rewrite (count_char_none _ _ Hts), (count_char_none _ _ Hphrase),
    !(count_char_none _ _ (print_int_no_LF _)).
  change (count_char is_LF "[") with O.
  change (count_char is_LF "] ") with O.
  change (count_char is_LF ":") with O.
  change (count_char is_LF "|") with O.
  change (count_char is_LF "(") with O.
  change (count_char is_LF ")|") with O.
  change (count_char is_LF newline) with 1%nat.
  lia.
Qed.

End One_line.

(** X7. With a local time in range and a four-digit year, the diagnostic
    is one newline-terminated line exactly when the file name field, the
    condition text and the message hold no line feed. A line feed in the
    directory part of the path does no harm: it is stripped. *)
Theorem diagnostic_one_line_iff
    (cond msg file : string) (line : Z) (p : process) :
  tm_in_range (zone p (clock p)) ->
  1000 <= year_of (zone p (clock p)) <= 9999 ->
  one_line (handler_text cond msg file line p) = true <->
  any_char is_LF (filename_of file) = false /\
  any_char is_LF cond = false /\
  any_char is_LF msg = false.
Proof.
  intros Hr Hy.
  destruct (datetime_text_shape _ Hr Hy) as [_ Hts].
  apply is_timestamp_no_LF in Hts.
  rewrite <- (datetime_of_fits p Hr Hy) in Hts.
  unfold one_line, handler_text.
  rewrite diagnostic_line_ends,
    (diagnostic_line_count _ _ _ _ _ _ _ Hts (contract_strerror_no_LF _)).
  cbn [andb]. rewrite Nat.eqb_eq.
  rewrite <- !count_char_zero_iff. lia.
Qed.

Lemma diagnostic_one_line_iff_witness :
  tm_in_range (zone sample_process (clock sample_process)) /\
  1000 <= year_of (zone sample_process (clock sample_process)) <= 9999 /\
  (one_line (handler_text "zero" "failed" "/tmp/a" 1 sample_process) = true
   <-> any_char is_LF (filename_of "/tmp/a") = false /\
       any_char is_LF "zero" = false /\
       any_char is_LF "failed" = false).
Proof.
  assert (Hr : tm_in_range (zone sample_process (clock sample_process)))
    by (unfold tm_in_range; cbn; lia).
  assert (Hy : 1000 <= year_of (zone sample_process (clock sample_process))
               <= 9999) by (unfold year_of; cbn; lia).
  split; [exact Hr |]. split; [exact Hy |].
  exact (diagnostic_one_line_iff "zero" "failed" "/tmp/a" 1
                                 sample_process Hr Hy).
Defined.

(** ** The enumeration *)

(** X8. Two different enumerators of [posix_error_t] have different
    values, but for the two aliased pairs: [POSIX_EAGAIN] with
    [POSIX_EWOULDBLOCK], and [POSIX_ENOTSUP] with [POSIX_EOPNOTSUPP]. *)
Theorem posix_code_aliases (a b : posix_error_t) :
  posix_code a = posix_code b ->
  a = b \/
  (a = POSIX_EAGAIN /\ b = POSIX_EWOULDBLOCK) \/
  (a = POSIX_EWOULDBLOCK /\ b = POSIX_EAGAIN) \/
  (a = POSIX_ENOTSUP /\ b = POSIX_EOPNOTSUPP) \/
  (a = POSIX_EOPNOTSUPP /\ b = POSIX_ENOTSUP).
Proof.
  intros H.
  destruct a; destruct b; cbn [posix_code] in H;
    first [ discriminate H | left; reflexivity | right; auto 8 ].
Qed.

Lemma posix_code_aliases_witness :
  posix_code POSIX_ENOTSUP = posix_code POSIX_EOPNOTSUPP /\
  (POSIX_ENOTSUP = POSIX_EOPNOTSUPP \/
   (POSIX_ENOTSUP = POSIX_EAGAIN /\ POSIX_EOPNOTSUPP = POSIX_EWOULDBLOCK) \/
   (POSIX_ENOTSUP = POSIX_EWOULDBLOCK /\ POSIX_EOPNOTSUPP = POSIX_EAGAIN) \/
   (POSIX_ENOTSUP = POSIX_ENOTSUP /\ POSIX_EOPNOTSUPP = POSIX_EOPNOTSUPP) \/
   (POSIX_ENOTSUP = POSIX_EOPNOTSUPP /\ POSIX_EOPNOTSUPP = POSIX_ENOTSUP)).
Proof.
  split; [reflexivity |].
  exact (posix_code_aliases POSIX_ENOTSUP POSIX_EOPNOTSUPP eq_refl).
Defined.

(** X9. Every enumerator has a value from 0 to 131, and only
    [POSIX_SUCCESS] has the value 0: an error enumerator is never 0. *)
Theorem posix_code_range (e : posix_error_t) :
  0 <= posix_code e <= 131 /\
  (posix_code e = 0 <-> e = POSIX_SUCCESS).
Proof.
  destruct e; cbn [posix_code];
    (split; [lia | split; intros H; first [reflexivity | discriminate H]]).
Qed.

(** ** The pause *)

Section Pause.

Import Demo.

Lemma wait_newline_finds (line rest : string) (out : list string) :
  any_char is_LF line = false ->
  forall fuel, (String.length line < fuel)%nat ->
  wait_newline fuel (mk_console (line ++ String LF rest) out)
  = Some (mk_console rest out).
Proof.
  induction line as [| a line IH]; intros Hl fuel Hfuel;
    (destruct fuel as [| fuel]; [cbn [String.length] in Hfuel; lia |]);
    cbn [wait_newline append getchar stdin stdout].
  - reflexivity.
  - cbn [any_char] in Hl. apply orb_false_elim in Hl.
    destruct Hl as [Ha Hl].
    match goal with
    | |- (if ?b then _ else _) = _ => change b with (is_LF a)
    end.
    rewrite Ha. apply IH; [exact Hl |]. cbn [String.length] in Hfuel. lia.
Qed.

Lemma wait_newline_spins (fuel : nat) :
  forall c, any_char is_LF (stdin c) = false -> wait_newline fuel c = None.
Proof.
  induction fuel as [| fuel IH]; intros [input out] H; [reflexivity |].
  cbn [stdin] in H.
  destruct input as [| a input];
    cbn [wait_newline getchar stdin stdout].
  - now apply IH.
  - cbn [any_char] in H. apply orb_false_elim in H.
    destruct H as [Ha H].
    match goal with
    | |- (if ?b then _ else _) = _ => change b with (is_LF a)
    end.
    rewrite Ha. now apply IH.
Qed.

End Pause.

(** X10. [PAUSE()] with a line on standard input: it prints the prompt,
    reads the input up to and including the first line feed, leaves what
    follows unread, prints a line feed and is done; one turn of the loop
    for each character read is enough. *)
Theorem PAUSE_reads_one_line
    (line rest : string) (out : list string) (fuel : nat) :
  any_char is_LF line = false ->
  (String.length line < fuel)%nat ->
  Demo.PAUSE fuel (Demo.mk_console (line ++ String LF rest) out)
  = Some (Demo.mk_console rest (out ++ [Demo.pause_prompt; newline])).
Proof.
  intros Hl Hfuel. unfold Demo.PAUSE, Demo.printf.
  cbn [Demo.stdin Demo.stdout].
  rewrite (wait_newline_finds line rest _ Hl fuel Hfuel).
  cbn [Demo.stdin Demo.stdout]. rewrite <- app_assoc. reflexivity.
Qed.

Lemma PAUSE_reads_one_line_witness :
  any_char is_LF "yes" = false /\
  (String.length "yes" < 4)%nat /\
  Demo.PAUSE 4 (Demo.mk_console ("yes" ++ String LF "next") [])
  = Some (Demo.mk_console "next" [Demo.pause_prompt; newline]).
Proof.
  split; [reflexivity |]. split; [cbn; lia |].
  exact (PAUSE_reads_one_line "yes" "next" [] 4 eq_refl
           (Nat.lt_succ_diag_r 3)).
Defined.

(** X11. [PAUSE()] without a line feed left on standard input, an empty
    or closed input among them: [getchar] returns [EOF] for ever, [EOF] is
    not a line feed, and the loop never ends, whatever the number of
    turns. *)
Theorem PAUSE_spins_without_newline (c : Demo.console) (fuel : nat) :
  any_char is_LF (Demo.stdin c) = false ->
  Demo.PAUSE fuel c = None.
Proof.
  intros H. unfold Demo.PAUSE.
  now rewrite (wait_newline_spins fuel (Demo.printf Demo.pause_prompt c) H).
Qed.

Lemma PAUSE_spins_without_newline_witness :
  any_char is_LF (Demo.stdin (Demo.mk_console "" [])) = false /\
  Demo.PAUSE 1000 (Demo.mk_console "" []) = None.
Proof.
  split; [reflexivity |].
  exact (PAUSE_spins_without_newline (Demo.mk_console "" []) 1000 eq_refl).
Defined.

(** * The handler on a host whose library may fail *)

Section Hosted_run.

Variables (cond msg file : string) (line : Z).

(** A library call changes [errno] at most. *)
Lemma after_fields (c : Hosted.lib_call) (h : Hosted.host) :
  Hosted.clock (Hosted.after c h) = Hosted.clock h /\
  Hosted.zone (Hosted.after c h) = Hosted.zone h /\
  Hosted.disturbs (Hosted.after c h) = Hosted.disturbs h /\
  Hosted.stack_junk (Hosted.after c h) = Hosted.stack_junk h /\
  Hosted.stderr_ok (Hosted.after c h) = Hosted.stderr_ok h /\
  Hosted.stderr_mode (Hosted.after c h) = Hosted.stderr_mode h /\
  Hosted.stderr_buffer (Hosted.after c h) = Hosted.stderr_buffer h /\
  Hosted.abort_flushes (Hosted.after c h) = Hosted.abort_flushes h /\
  Hosted.trace (Hosted.after c h) = Hosted.trace h.
Proof.
  unfold Hosted.after. now destruct (Hosted.disturbs h c).
Qed.

Lemma at_report_fields (h : Hosted.host) :
  Hosted.stack_junk (Hosted.at_report h) = Hosted.stack_junk h /\
  Hosted.stderr_ok (Hosted.at_report h) = Hosted.stderr_ok h /\
  Hosted.stderr_mode (Hosted.at_report h) = Hosted.stderr_mode h /\
  Hosted.stderr_buffer (Hosted.at_report h) = Hosted.stderr_buffer h /\
  Hosted.abort_flushes (Hosted.at_report h) = Hosted.abort_flushes h /\
  Hosted.trace (Hosted.at_report h) = Hosted.trace h.
Proof.
  unfold Hosted.at_report.
  destruct (after_fields Hosted.Call_time h)
    as (_ & _ & _ & J1 & O1 & M1 & B1 & F1 & T1).
  destruct (after_fields Hosted.Call_localtime
              (Hosted.after Hosted.Call_time h))
    as (_ & _ & _ & J2 & O2 & M2 & B2 & F2 & T2).
  destruct (after_fields Hosted.Call_strftime
              (Hosted.after Hosted.Call_localtime
                 (Hosted.after Hosted.Call_time h)))
    as (_ & _ & _ & J3 & O3 & M3 & B3 & F3 & T3).
  repeat split; congruence.
Qed.

(** With the null pointer from [localtime] the handler runs into
    [strftime] and goes no further. *)
Lemma hosted_run_null (h : Hosted.host) :
  Hosted.zone h (Hosted.clock h) = None ->
  Hosted._contract_fail cond msg file line h =
  Hosted.Undefined
    (Hosted.after Hosted.Call_localtime (Hosted.after Hosted.Call_time h)).
Proof.
  intros Hz.
  unfold Hosted._contract_fail, Hosted.bind, Hosted.time, Hosted.localtime,
    Hosted.strftime_call.
  rewrite (proj1 (proj2 (after_fields Hosted.Call_time h))), Hz.
  reflexivity.
Qed.

(** With a broken-down time the handler reaches [fprintf] and then
    [abort]. *)
Lemma hosted_run (h : Hosted.host) (t : tm) :
  Hosted.zone h (Hosted.clock h) = Some t ->
  Hosted._contract_fail cond msg file line h =
  Hosted.bind
    (Hosted.fprintf_stderr diagnostic_format
       [Arg_s (Hosted.datetime_at_report t h); Arg_s (filename_of file);
        Arg_d line; Arg_s cond; Arg_d (Hosted.errno_at_report h);
        Arg_s (contract_strerror (Hosted.errno_at_report h)); Arg_s msg])
    (fun _ => Hosted.abort)
    (Hosted.at_report h).
Proof.
  intros Hz.
  unfold Hosted._contract_fail, Hosted.bind,
    Hosted.time, Hosted.localtime, Hosted.strftime_call, Hosted.read_array,
    Hosted.read_errno, Hosted.call_contract_strerror, Hosted.ret.
  rewrite (proj1 (proj2 (after_fields Hosted.Call_time h))), Hz.
  cbv beta iota zeta.
  fold (Hosted.at_report h). fold (Hosted.errno_at_report h).
  destruct (at_report_fields h) as (Hj & _).
  unfold Hosted.datetime_at_report.
  destruct (strftime sizeof_datetime datetime_format t);
    cbv beta iota; rewrite ?Hj; reflexivity.
Qed.

Lemma report_text_head (h : Hosted.host) (t : tm) :
  exists rest,
    Hosted.report_text cond msg file line t h = String "[" rest.
Proof. eexists. reflexivity. Qed.

(** What the handler adds to the trace when [localtime] succeeds: the
    write, when the text gets out, and the abort. *)
Lemma hosted_trace (h : Hosted.host) (t : tm) :
  Hosted.zone h (Hosted.clock h) = Some t ->
  exists h',
    Hosted._contract_fail cond msg file line h = Hosted.Aborted h' /\
    Hosted.trace h' =
      (Hosted.trace h ++
       (if Hosted.emits h
        then [Stderr_write (Hosted.pending h ++
                            Hosted.report_text cond msg file line t h)]
        else []) ++
       [Abort_signal])%list.
Proof.
  intros Hz. rewrite (hosted_run h t Hz).
  destruct (at_report_fields h) as (_ & Hok & Hmode & Hbuf & Hfl & Htr).
  unfold Hosted.bind, Hosted.fprintf_stderr, Hosted.abort, Hosted.emits.
  rewrite diagnostic_format_text.
  fold (Hosted.report_text cond msg file line t h).
  destruct (report_text_head h t) as [rest ->].
  unfold Hosted.flush_stderr, Hosted.pending.
  remember (Hosted.at_report h) as g eqn:Eg. clear Eg.
  destruct g as [e c z d ok m b fl j tr].
  cbn [Hosted.stderr_ok Hosted.stderr_mode Hosted.stderr_buffer
       Hosted.abort_flushes Hosted.trace] in Hok, Hmode, Hbuf, Hfl, Htr.
  subst ok m b fl tr.
  cbn [Hosted.stderr_mode].
  destruct (Hosted.stderr_mode h), (Hosted.stderr_ok h),
    (Hosted.abort_flushes h);
    cbn [Hosted.emit Hosted.with_buffer Hosted.stderr_ok Hosted.stderr_mode
         Hosted.stderr_buffer Hosted.abort_flushes Hosted.trace andb append];
    try (destruct (Hosted.stderr_buffer h);
         cbn [Hosted.emit Hosted.with_buffer Hosted.stderr_ok
              Hosted.stderr_mode Hosted.stderr_buffer Hosted.abort_flushes
              Hosted.trace append]);
    (eexists; split; [reflexivity |]);
    cbn [Hosted.emit Hosted.with_buffer Hosted.stderr_ok Hosted.stderr_mode
         Hosted.stderr_buffer Hosted.abort_flushes Hosted.trace app append];
    rewrite <- ?app_assoc; reflexivity.
Qed.

(** On the host of the good path the handler leaves the trace it leaves
    in the process that host stands for. *)
Lemma good_host_agrees (p : process) :
  Hosted.trace
    (Hosted.final (Hosted._contract_fail cond msg file line
                                         (Hosted.good_host p)))
  = trace (final (_contract_fail cond msg file line p)).
Proof.
  destruct (hosted_trace (Hosted.good_host p) (zone p (clock p)) eq_refl)
    as (h' & Hrun & Htr).
  rewrite Hrun. cbn [Hosted.final]. rewrite Htr, contract_fail_trace.
  unfold Hosted.emits, Hosted.pending, Hosted.good_host.
  cbn [Hosted.trace Hosted.stderr_ok Hosted.stderr_mode].
  rewrite andb_true_r. reflexivity.
Qed.

End Hosted_run.

(** C1, refuted as stated. With standard error fully buffered the text
    stays in the stream, the handler does not flush, and [abort] ends the
    process with nothing written; with the null pointer from [localtime]
    the handler goes into [strftime] through it and never calls [abort]. *)
Lemma diagnostic_lost_counterexample :
  (let h := Hosted.sample_host (fun _ => None) (fun _ => Some sample_tm)
                               Hosted.Fully_buffered in
   Hosted.trace
     (Hosted.final (Hosted._contract_fail "zero" "failed" "demo.c" 42 h))
   = [Abort_signal]) /\
  (let h := Hosted.sample_host (fun _ => None) (fun _ => None)
                               Hosted.Unbuffered in
   Hosted._contract_fail "zero" "failed" "demo.c" 42 h = Hosted.Undefined h).
Proof. split; reflexivity. Qed.

(** C1, amended. When [localtime] returns a broken-down time,
    [_contract_fail] does not return and ends the process by [abort],
    also when standard error cannot be written. The diagnostic is written
    whole before the abort when the stream can be written and is
    unbuffered, or is flushed by [abort]; the last event is the abort. *)
Theorem contract_fail_writes_then_aborts
    (cond msg file : string) (line : Z) (h : Hosted.host) (t : tm) :
  Hosted.zone h (Hosted.clock h) = Some t ->
  (forall q,
      Hosted._contract_fail cond msg file line h <> Hosted.Returned tt q) /\
  exists h',
    Hosted._contract_fail cond msg file line h = Hosted.Aborted h' /\
    Hosted.trace h' =
      (Hosted.trace h ++
       (if Hosted.emits h
        then [Stderr_write (Hosted.pending h ++
                            Hosted.report_text cond msg file line t h)]
        else []) ++
       [Abort_signal])%list /\
    (Hosted.stderr_mode h = Hosted.Unbuffered ->
     Hosted.trace h' =
       (Hosted.trace h ++
        (if Hosted.stderr_ok h
         then [Stderr_write (Hosted.report_text cond msg file line t h)]
         else []) ++
        [Abort_signal])%list).
Proof.
  intros Hz.
  destruct (hosted_trace cond msg file line h t Hz) as (h' & Hrun & Htr).
  split; [rewrite Hrun; discriminate |].
  exists h'. split; [exact Hrun |]. split; [exact Htr |].
  intros Hmode. rewrite Htr. unfold Hosted.emits, Hosted.pending.
  rewrite Hmode, andb_true_r. reflexivity.
Qed.

Lemma contract_fail_writes_then_aborts_witness :
  let h := Hosted.sample_host (fun _ => None) (fun _ => Some sample_tm)
                              Hosted.Unbuffered in
  Hosted.zone h (Hosted.clock h) = Some sample_tm /\
  Hosted.stderr_mode h = Hosted.Unbuffered /\
  exists h',
    Hosted._contract_fail "zero" "failed" "demo.c" 42 h = Hosted.Aborted h' /\
    Hosted.trace h' =
      [Stderr_write
         (Hosted.report_text "zero" "failed" "demo.c" 42 sample_tm h);
       Abort_signal].
Proof.
  intros h. split; [reflexivity |]. split; [reflexivity |].
  destruct (contract_fail_writes_then_aborts
              "zero" "failed" "demo.c" 42 h sample_tm eq_refl)
    as (_ & h' & Hrun & _ & Hunbuf).
  exists h'. split; [exact Hrun |]. exact (Hunbuf eq_refl).
Defined.

(** C8, refuted as stated. The handler is entered with [POSIX_EINVAL]
    (22) in [errno]; [localtime] leaves [POSIX_ENOENT] (2) behind; the
    line shows 2 and its phrase, not the error of the violation. *)
Lemma errno_overwritten_counterexample :
  let h := Hosted.sample_host Hosted.localtime_sets_enoent
                              (fun _ => Some sample_tm) Hosted.Unbuffered in
  Hosted.errno h = 22 /\
  stderr_writes
    (Hosted.trace
       (Hosted.final (Hosted._contract_fail "zero" "failed" "demo.c" 42 h)))
  = ["[2026-10-30 09:05:07] demo.c:42|zero|2(No such file or directory)|failed"
     ++ newline].
Proof. split; reflexivity. Qed.

(** C8, amended. In the diagnostic [_contract_fail] puts out, the number
    in the code field and the phrase after it agree: the phrase is
    [contract_strerror] of the number printed, and both are [errno] as it
    stands when the handler formats the line, after [time], [localtime] and
    [strftime] have returned. When none of these calls sets [errno], that
    is the [errno] the handler was entered with. *)
Theorem diagnostic_code_phrase_coherent
    (cond msg file : string) (line : Z) (h : Hosted.host) (t : tm) :
  Hosted.zone h (Hosted.clock h) = Some t ->
  stderr_writes
    (Hosted.trace
       (Hosted.final (Hosted._contract_fail cond msg file line h))) =
    (stderr_writes (Hosted.trace h) ++
     (if Hosted.emits h
      then [(Hosted.pending h ++
             diagnostic_line (Hosted.datetime_at_report t h)
               (filename_of file) line cond
               (Hosted.errno_at_report h)
               (contract_strerror (Hosted.errno_at_report h)) msg)%string]
      else []))%list /\
  (Hosted.undisturbed h -> Hosted.errno_at_report h = Hosted.errno h).
Proof.
  intros Hz. split.
  - destruct (hosted_trace cond msg file line h t Hz) as (h' & -> & Htr).
    cbn [Hosted.final]. rewrite Htr, !stderr_writes_app.
    destruct (Hosted.emits h); cbn [stderr_writes app].
    + reflexivity.
    + now rewrite app_nil_r.
  - intros Hu. unfold Hosted.errno_at_report, Hosted.at_report, Hosted.after.
    now rewrite !Hu.
Qed.

Lemma diagnostic_code_phrase_coherent_witness :
  let h := Hosted.sample_host (fun _ => None) (fun _ => Some sample_tm)
                              Hosted.Unbuffered in
  Hosted.zone h (Hosted.clock h) = Some sample_tm /\
  Hosted.undisturbed h /\
  stderr_writes
    (Hosted.trace
       (Hosted.final (Hosted._contract_fail "zero" "failed" "demo.c" 42 h)))
  = ["[2026-10-30 09:05:07] demo.c:42|zero|22(Invalid argument)|failed"
     ++ newline] /\
  Hosted.errno_at_report h = Hosted.errno h.
Proof.
  intros h.
  assert (Hu : Hosted.undisturbed h) by (intros c; reflexivity).
  split; [reflexivity |]. split; [exact Hu |].
  destruct (diagnostic_code_phrase_coherent
              "zero" "failed" "demo.c" 42 h sample_tm eq_refl)
    as (Hw & He).
  split; [exact Hw | exact (He Hu)].
Defined.
